(** * Ordered form-submission capture

    The Apps Script receiver of FORM_DOC.md ([parseQueryString],
    [normalizeValue], [doPost]) and the submit handler of the contact form in
    script.js, embedded as functions and studied against the specification.

    Conventions of the embedding.
    - A string is a byte string, the UTF-8 encoding of the text.
    - A value of the host language is a [value]; a number is carried as the
      text its string conversion gives.  An object is the list of its own
      properties in insertion order, and a property read is resolved against
      own properties.
    - A thrown exception is an [exn], threaded through an error monad
      ([result]); a call of a platform service is a state transformer that
      returns or throws ([M]).
    - [JSON.parse] is a parameter.  The clock, the spreadsheet service and the
      mail service are an interface ([Platform]); [Grid] implements it with a
      spreadsheet as a grid of cells.
    - The page of the contact form is a record ([Client.Page]) with a timer
      queue and a clock in milliseconds. *)

From Stdlib Require Import String Ascii List Bool Arith NArith ZArith Lia.
From Stdlib Require Import DecimalString Permutation.
From Stdlib Require QArith.
Import ListNotations.

Local Open Scope list_scope.
Local Open Scope string_scope.
Local Open Scope nat_scope.

(** ** Strings of the host language *)

Module JSString.

(** [s.split(sep)] for a non-empty separator: cut at each leftmost
    occurrence, scanning left to right.  [skip] counts the characters of a
    separator that was just matched and is still to be passed over. *)
Fixpoint split_from (sep : string) (skip : nat) (cur s : string) : list string :=
  match s with
  | EmptyString => [cur]
  | String c rest =>
      match skip with
      | S k => split_from sep k cur rest
      | O =>
          if prefix sep s
          then cur :: split_from sep (String.length sep - 1) "" rest
          else split_from sep 0 (cur ++ String c "") rest
      end
  end.

Definition split (sep s : string) : list string := split_from sep 0 "" s.

(** [parts.join(sep)] on an array of strings. *)
Fixpoint join (sep : string) (parts : list string) : string :=
  match parts with
  | [] => ""
  | [p] => p
  | p :: rest => p ++ sep ++ join sep rest
  end.

(** [s.replace(/\+/g, ' ')]. *)
Fixpoint replacePlus (s : string) : string :=
  match s with
  | EmptyString => EmptyString
  | String c rest =>
      String (if Ascii.eqb c "+" then " "%char else c) (replacePlus rest)
  end.

(** [s.indexOf(p) === 0]. *)
Definition startsWith (p s : string) : bool := prefix p s.

Fixpoint rev_string (acc s : string) : string :=
  match s with
  | EmptyString => acc
  | String c rest => rev_string (String c acc) rest
  end.

(** White space and line terminators removed by [trim], as byte sequences:
    TAB, LF, VT, FF, CR, SP; U+00A0; U+1680, U+2000..U+200A, U+2028, U+2029,
    U+202F, U+205F, U+3000, U+FEFF. *)
Definition ws1 (a : ascii) : bool :=
  let n := nat_of_ascii a in ((9 <=? n) && (n <=? 13)) || (n =? 32).

Definition ws2 (a b : ascii) : bool :=
  (nat_of_ascii a =? 194) && (nat_of_ascii b =? 160).

Definition ws3 (a b c : ascii) : bool :=
  let x := nat_of_ascii a in
  let y := nat_of_ascii b in
  let z := nat_of_ascii c in
  ((x =? 225) && (y =? 154) && (z =? 128))
  || ((x =? 226) && (y =? 128)
      && (((128 <=? z) && (z <=? 138)) || (z =? 168) || (z =? 169) || (z =? 175)))
  || ((x =? 226) && (y =? 129) && (z =? 159))
  || ((x =? 227) && (y =? 128) && (z =? 128))
  || ((x =? 239) && (y =? 187) && (z =? 191)).

(** Strip leading white space; with [back = true] the string is read
    backwards, so a multi-byte sequence is met last byte first. *)
Fixpoint strip (back : bool) (s : string) : string :=
  match s with
  | EmptyString => s
  | String a r1 =>
      if ws1 a then strip back r1
      else
        match r1 with
        | EmptyString => s
        | String b r2 =>
            if (if back then ws2 b a else ws2 a b) then strip back r2
            else
              match r2 with
              | EmptyString => s
              | String c r3 =>
                  if (if back then ws3 c b a else ws3 a b c)
                  then strip back r3
                  else s
              end
        end
  end.

(** [s.trim()]. *)
Definition trim (s : string) : string :=
  rev_string "" (strip true (rev_string "" (strip false s))).

(** Decimal rendering of a non-negative integer, and its inverse on
    canonical numerals (no sign, no leading zero). *)
Definition of_N (n : N) : string := NilZero.string_of_uint (N.to_uint n).

Definition to_N (s : string) : option N :=
  match NilZero.uint_of_string s with
  | Some u => let n := N.of_uint u in
              if String.eqb (of_N n) s then Some n else None
  | None => None
  end.

End JSString.

(** ** Exceptions *)

Record exn : Type := Exn { name : string; message : string }.

Definition TypeError (m : string) : exn := Exn "TypeError" m.
Definition URIError (m : string) : exn := Exn "URIError" m.
Definition Error (m : string) : exn := Exn "Error" m.

(** A computation that returns or throws. *)
Definition result (A : Type) : Type := (exn + A)%type.

Definition ok {A} (a : A) : result A := inr a.
Definition throw {A} (e : exn) : result A := inl e.

Definition rbind {A B} (m : result A) (k : A -> result B) : result B :=
  match m with
  | inl e => inl e
  | inr a => k a
  end.

Declare Scope result_scope.
Delimit Scope result_scope with result.
Notation "x <- m ;; k" := (rbind m (fun x => k))
  (at level 61, m at next level, right associativity) : result_scope.

(** ** [decodeURIComponent] *)

Module URI.

Inductive token : Type :=
| Lit (c : ascii)      (* a character taken as it is *)
| Esc (b : nat).       (* the octet of a [%XX] escape *)

Definition hexDigit (c : ascii) : option nat :=
  let n := nat_of_ascii c in
  if (48 <=? n) && (n <=? 57) then Some (n - 48)
  else if (65 <=? n) && (n <=? 70) then Some (n - 55)
  else if (97 <=? n) && (n <=? 102) then Some (n - 87)
  else None.

(** Every [%] must be followed by two hexadecimal digits. *)
Fixpoint tokens (s : string) : option (list token) :=
  match s with
  | EmptyString => Some []
  | String c rest =>
      if Ascii.eqb c "%" then
        match rest with
        | String h (String l rest') =>
            match hexDigit h, hexDigit l, tokens rest' with
            | Some x, Some y, Some ts => Some (Esc (16 * x + y) :: ts)
            | _, _, _ => None
            end
        | _ => None
        end
      else
        match tokens rest with
        | Some ts => Some (Lit c :: ts)
        | None => None
        end
  end.

Definition between (lo hi n : nat) : bool := (lo <=? n) && (n <=? hi).
Definition cont (n : nat) : bool := between 128 191 n.

(** Well-formed two-, three- and four-octet sequences of UTF-8. *)
Definition valid2 (a b : nat) : bool := between 194 223 a && cont b.

Definition valid3 (a b c : nat) : bool :=
  ((a =? 224) && between 160 191 b && cont c)
  || (between 225 236 a && cont b && cont c)
  || ((a =? 237) && between 128 159 b && cont c)
  || (between 238 239 a && cont b && cont c).

Definition valid4 (a b c d : nat) : bool :=
  ((a =? 240) && between 144 191 b && cont c && cont d)
  || (between 241 243 a && cont b && cont c && cont d)
  || ((a =? 244) && between 128 143 b && cont c && cont d).

Definition chr (n : nat) : ascii := ascii_of_nat n.

(** An escaped octet below 128 is a character; otherwise it must start a
    well-formed sequence whose other octets are escapes too. *)
Fixpoint assemble (ts : list token) : option string :=
  match ts with
  | [] => Some ""
  | Lit c :: r => option_map (String c) (assemble r)
  | Esc a :: r =>
      if a <? 128 then option_map (String (chr a)) (assemble r)
      else
        match r with
        | Esc b :: r2 =>
            if valid2 a b
            then option_map (fun t => String (chr a) (String (chr b) t))
                            (assemble r2)
            else
              match r2 with
              | Esc c :: r3 =>
                  if valid3 a b c
                  then option_map
                         (fun t => String (chr a) (String (chr b) (String (chr c) t)))
                         (assemble r3)
                  else
                    match r3 with
                    | Esc d :: r4 =>
                        if valid4 a b c d
                        then option_map
                               (fun t => String (chr a) (String (chr b)
                                          (String (chr c) (String (chr d) t))))
                               (assemble r4)
                        else None
                    | _ => None
                    end
              | _ => None
              end
        | _ => None
        end
  end.

Definition decodeURIComponent (s : string) : result string :=
  match tokens s with
  | Some ts =>
      match assemble ts with
      | Some t => ok t
      | None => throw (URIError "URI malformed")
      end
  | None => throw (URIError "URI malformed")
  end.

End URI.

Import JSString.

(** ** Values *)

(** A number is carried as the text its string conversion gives ("0", "1.5",
    "1e+21", "NaN"): the receiver only ever converts a number to a string or
    tests whether it is zero. *)
#[warnings="-register-all"]
Inductive value : Type :=
| VUndefined
| VNull
| VBool (b : bool)
| VNum (repr : string)
| VStr (s : string)
| VArr (elems : list value)
| VObj (props : list (string * value)).

(** Truthiness, as tested by [if (v)], [a || b] and [filter(Boolean)]. *)
Definition ToBoolean (v : value) : bool :=
  match v with
  | VUndefined | VNull => false
  | VBool b => b
  | VNum r => negb (String.eqb r "0" || String.eqb r "NaN")
  | VStr s => negb (String.eqb s "")
  | VArr _ | VObj _ => true
  end.

(** [String(v)]; an array is joined with commas, with nothing written for
    an element that is null or undefined. *)
Fixpoint ToString (v : value) : string :=
  match v with
  | VUndefined => "undefined"
  | VNull => "null"
  | VBool true => "true"
  | VBool false => "false"
  | VNum r => r
  | VStr s => s
  | VArr elems =>
      join ","
        (map (fun x => match x with
                       | VUndefined | VNull => ""
                       | _ => ToString x
                       end) elems)
  | VObj _ => "[object Object]"
  end.

(** The text of one element inside [Array.prototype.join]. *)
Definition elementText (x : value) : string :=
  match x with
  | VUndefined | VNull => ""
  | _ => ToString x
  end.

(** [arr.join(sep)]. *)
Definition arrayJoin (sep : string) (elems : list value) : string :=
  join sep (map elementText elems).

(** *** Own properties *)

Fixpoint assoc (k : string) (props : list (string * value)) : option value :=
  match props with
  | [] => None
  | (k', v) :: rest => if String.eqb k' k then Some v else assoc k rest
  end.

(** [obj[k] = v]: an existing property keeps its place, a new one goes last. *)
Fixpoint put (k : string) (v : value) (props : list (string * value))
  : list (string * value) :=
  match props with
  | [] => [(k, v)]
  | (k', v') :: rest =>
      if String.eqb k' k then (k', v) :: rest else (k', v') :: put k v rest
  end.

(** [delete obj[k]]. *)
Fixpoint remove (k : string) (props : list (string * value))
  : list (string * value) :=
  match props with
  | [] => []
  | (k', v') :: rest =>
      if String.eqb k' k then remove k rest else (k', v') :: remove k rest
  end.

(** A key is an array index when it is the canonical numeral of an integer
    below 2^32 - 1. *)
Definition arrayIndex (k : string) : option N :=
  match to_N k with
  | Some n => if (n <? 4294967295)%N then Some n else None
  | None => None
  end.

Fixpoint insert_sorted (n : N) (l : list N) : list N :=
  match l with
  | [] => [n]
  | m :: rest => if (n <=? m)%N then n :: l else m :: insert_sorted n rest
  end.

Definition sort_N (l : list N) : list N := fold_right insert_sorted [] l.

Fixpoint indexKeys (ks : list string) : list N :=
  match ks with
  | [] => []
  | k :: rest =>
      match arrayIndex k with
      | Some n => n :: indexKeys rest
      | None => indexKeys rest
      end
  end.

Definition isIndexKey (k : string) : bool :=
  match arrayIndex k with
  | Some _ => true
  | None => false
  end.

(** The order in which own keys are listed: array indices ascending, then
    the other keys in insertion order. *)
Definition ownKeys (props : list (string * value)) : list string :=
  let ks := map fst props in
  map of_N (sort_N (indexKeys ks)) ++ filter (fun k => negb (isIndexKey k)) ks.

Definition indices (len : nat) : list string :=
  map (fun i => of_N (N.of_nat i)) (seq 0 len).

(** [Object.keys(v)]. *)
Definition keys (v : value) : result (list string) :=
  match v with
  | VUndefined | VNull =>
      throw (TypeError "Cannot convert undefined or null to object")
  | VObj props => ok (ownKeys props)
  | VArr elems => ok (indices (List.length elems))
  | VStr s => ok (indices (String.length s))
  | VBool _ | VNum _ => ok []
  end.

(** [v[k]]. *)
Definition Get (v : value) (k : string) : result value :=
  match v with
  | VUndefined =>
      throw (TypeError ("Cannot read properties of undefined (reading '" ++ k ++ "')"))
  | VNull =>
      throw (TypeError ("Cannot read properties of null (reading '" ++ k ++ "')"))
  | VObj props =>
      ok match assoc k props with
         | Some x => x
         | None => VUndefined
         end
  | VArr elems =>
      ok match arrayIndex k with
         | Some i =>
             match nth_error elems (N.to_nat i) with
             | Some x => x
             | None => VUndefined
             end
         | None =>
             if String.eqb k "length"
             then VNum (of_N (N.of_nat (List.length elems)))
             else VUndefined
         end
  | VStr s =>
      ok match arrayIndex k with
         | Some i =>
             match String.get (N.to_nat i) s with
             | Some c => VStr (String c "")
             | None => VUndefined
             end
         | None =>
             if String.eqb k "length"
             then VNum (of_N (N.of_nat (String.length s)))
             else VUndefined
         end
  | VBool _ | VNum _ => ok VUndefined
  end.

(** [delete v[k]]; only an object has properties that can be removed. *)
Definition Delete (v : value) (k : string) : value :=
  match v with
  | VObj props => VObj (remove k props)
  | _ => v
  end.

(** ** The request and the services of the platform *)

(** The event handed to [doPost].  A field of [postData] that is absent
    reads as undefined, which the receiver treats as it treats the empty
    string; [parameter] holds the own properties of [e.parameter]. *)
Record PostData : Type := {
  type : string;
  contents : string
}.

Record Event : Type := {
  postData : option PostData;
  parameter : option (list (string * value))
}.

Record Email : Type := {
  to : string;
  subject : string;
  body : string
}.

(** What [ContentService.createTextOutput(JSON.stringify(o)).setMimeType(m)]
    returns: the object that was serialised, and the MIME type. *)
Record TextOutput : Type := {
  payload : value;
  mimeType : string
}.

(** A platform call runs on the state of the outside world, and returns or
    throws; the state it leaves behind stays when it throws. *)
Definition M (W A : Type) : Type := W -> result A * W.

Definition ret {W A} (a : A) : M W A := fun w => (ok a, w).

Definition bind {W A B} (m : M W A) (k : A -> M W B) : M W B :=
  fun w =>
    match m w with
    | (inl e, w') => (inl e, w')
    | (inr a, w') => k a w'
    end.

(** A pure step that may throw. *)
Definition lift {W A} (r : result A) : M W A := fun w => (r, w).

(** [try { m } catch (err) { h err }]. *)
Definition try_catch {W A} (m : M W A) (h : exn -> M W A) : M W A :=
  fun w =>
    match m w with
    | (inl e, w') => h e w'
    | (inr a, w') => (inr a, w')
    end.

Declare Scope platform_scope.
Delimit Scope platform_scope with platform.
Notation "x <- m ;; k" := (bind m (fun x => k))
  (at level 61, m at next level, right associativity) : platform_scope.
Notation "m ;;; k" := (bind m (fun _ => k))
  (at level 61, right associativity) : platform_scope.

(** The services [doPost] calls: the clock, [SpreadsheetApp], the methods of
    the spreadsheet and sheet handles it obtains, and [MailApp]. *)
Record Platform : Type := {
  World : Type;
  Spreadsheet : Type;
  Sheet : Type;
  toISOString : M World string;
  openById : string -> M World Spreadsheet;
  getSheetByName : Spreadsheet -> string -> M World (option Sheet);
  getSheets : Spreadsheet -> M World (list Sheet);
  getLastColumn : Sheet -> M World nat;
  insertColumnsAfter : Sheet -> nat -> Z -> M World unit;
  (** [sheet.getRange(row, column, numRows, numColumns).setValues(values)] *)
  setValues : Sheet -> nat -> nat -> nat -> nat -> list (list string) -> M World unit;
  appendRow : Sheet -> list string -> M World unit;
  sendEmail : Email -> M World unit
}.

(** ** The receiver (FORM_DOC.md) *)

Definition SHEET_ID : string := "REPLACE_WITH_YOUR_SHEET_ID".
Definition SHEET_NAME : string := "Sheet1".
Definition EMAIL_TO : string := "you@example.com".

Definition FIELD_ORDER : string := "_field_order".

Definition newline : string := String (ascii_of_nat 10) "".

Module Receiver.

(** One pair of the query string: the key is what precedes the first [=],
    the value is the rest. *)
Definition decodePair (pair_ : string) : result (string * string) :=
  let parts := split "=" pair_ in
  (k <- URI.decodeURIComponent (replacePlus (hd "" parts)) ;;
   v <- URI.decodeURIComponent (replacePlus (join "=" (tl parts))) ;;
   ok (k, v))%result.

(** The three-way update of the loop body of [parseQueryString]. *)
Definition accumulate (obj : list (string * value)) (k v : string)
  : list (string * value) :=
  match assoc k obj with
  | None | Some VUndefined => put k (VStr v) obj
  | Some (VArr elems) => put k (VArr (elems ++ [VStr v])) obj
  | Some x => put k (VArr [x; VStr v]) obj
  end.

Fixpoint parsePairs (obj : list (string * value)) (pairs : list string)
  : result (list (string * value)) :=
  match pairs with
  | [] => ok obj
  | pair_ :: rest =>
      if String.eqb pair_ "" then parsePairs obj rest
      else
        (kv <- decodePair pair_ ;;
         parsePairs (accumulate obj (fst kv) (snd kv)) rest)%result
  end.

Definition parseQueryString (qs : string) : result value :=
  (obj <- parsePairs [] (split "&" qs) ;; ok (VObj obj))%result.

Definition normalizeValue (v : value) : string :=
  match v with
  | VNull | VUndefined => ""
  | VArr elems => arrayJoin ", " elems
  | _ => ToString v
  end.

(** [hint.split('|||').map(s => s.trim()).filter(Boolean)] *)
Definition splitLabels (hint : string) : list string :=
  filter (fun s => negb (String.eqb s "")) (map trim (split "|||" hint)).

Section WithJSON.

(** [JSON.parse], which returns a value or throws. *)
Variable JSON_parse : string -> result value.

(** [Array.isArray(val) ? val[0] : val] *)
Definition firstValue (val : value) : value :=
  match val with
  | VArr elems => hd VUndefined elems
  | _ => val
  end.

(** [for (let k in e.parameter) data[k] = ...] *)
Definition copyParameters (params : list (string * value))
  : list (string * value) :=
  fold_left
    (fun data k =>
       match assoc k params with
       | Some val => put k (firstValue val) data
       | None => data
       end)
    (ownKeys params) [].

Definition isJSON (e : Event) : bool :=
  match postData e with
  | Some pd =>
      negb (String.eqb (type pd) "") && startsWith "application/json" (type pd)
  | None => false
  end.

Definition hasParameters (e : Event) : bool :=
  match parameter e with
  | Some params => negb (Nat.eqb (List.length (ownKeys params)) 0)
  | None => false
  end.

Definition hasContents (e : Event) : bool :=
  match postData e with
  | Some pd => negb (String.eqb (contents pd) "")
  | None => false
  end.

Definition contentsOf (e : Event) : string :=
  match postData e with
  | Some pd => contents pd
  | None => ""
  end.

(** 1) the flat object [data] built from the request. *)
Definition data_of (e : Event) : result value :=
  if isJSON e then
    match JSON_parse (if String.eqb (contentsOf e) "" then "{}" else contentsOf e) with
    | inr v => ok v
    | inl _ => ok (VObj [])
    end
  else if hasParameters e then
    match parameter e with
    | Some params => ok (VObj (copyParameters params))
    | None => ok (VObj [])
    end
  else if hasContents e then parseQueryString (contentsOf e)
  else ok (VObj []).

(** 2) [fieldOrder], and [data] with the helper removed. *)
Definition fieldOrder_of (data : value) : result (list string * value) :=
  (hint <- Get data FIELD_ORDER ;;
   if ToBoolean hint then
     ok (splitLabels (ToString hint), Delete data FIELD_ORDER)
   else
     ks <- keys data ;;
     ok (ks, data))%result.

(** 3) the header row and the row of values. *)
Definition headers_of (fieldOrder : list string) : list string :=
  "Timestamp" :: fieldOrder.

Fixpoint pushValues (data : value) (fieldOrder : list string) (row : list string)
  : result (list string) :=
  match fieldOrder with
  | [] => ok row
  | key :: rest =>
      (v <- Get data key ;;
       pushValues data rest (row ++ [normalizeValue v])%list)%result
  end.

Definition row_of (timestamp : string) (fieldOrder : list string) (data : value)
  : result (list string) :=
  pushValues data fieldOrder [timestamp].

(** Steps 1 to 3 for a request stamped [timestamp]: header and row. *)
Definition record_of (timestamp : string) (e : Event)
  : result (list string * list string) :=
  (data <- data_of e ;;
   od <- fieldOrder_of data ;;
   row <- row_of timestamp (fst od) (snd od) ;;
   ok (headers_of (fst od), row))%result.

(** 6) the lines of the notification. *)
Definition lines_of (headers row : list string) : list string :=
  map (fun hi => fst hi ++ ":" ++ newline ++ nth (snd hi) row "")
      (combine headers (seq 0 (List.length headers))).

Definition successOutput : TextOutput :=
  {| payload := VObj [("status", VStr "success")];
     mimeType := "application/json" |}.

Definition errorOutput (err : exn) : TextOutput :=
  {| payload := VObj [("status", VStr "error"); ("message", VStr (message err))];
     mimeType := "application/json" |}.

Variable P : Platform.

(** The body of the [try] block. *)
Definition doPost_try (e : Event) : M (World P) TextOutput :=
  (data <- lift (data_of e) ;;
   od <- lift (fieldOrder_of data) ;;
   let fieldOrder := fst od in
   let data := snd od in
   let headers := headers_of fieldOrder in
   now <- toISOString P ;;
   row <- lift (row_of now fieldOrder data) ;;
   ss <- openById P SHEET_ID ;;
   named <- getSheetByName P ss SHEET_NAME ;;
   found <- match named with
            | Some sh => ret (Some sh)
            | None => all <- getSheets P ss ;; ret (hd_error all)
            end ;;
   match found with
   | None =>
       lift (throw (TypeError
         "Cannot read properties of undefined (reading 'getLastColumn')"))
   | Some sheet =>
       last <- getLastColumn P sheet ;;
       (if last <? List.length headers then
          l1 <- getLastColumn P sheet ;;
          l2 <- getLastColumn P sheet ;;
          insertColumnsAfter P sheet (if Nat.eqb l1 0 then 1 else l1)
            (Z.of_nat (List.length headers) - Z.of_nat l2)%Z
        else ret tt) ;;;
       setValues P sheet 1 1 1 (List.length headers) [headers] ;;;
       appendRow P sheet row ;;;
       sendEmail P {| to := EMAIL_TO;
                      subject := "New Ideal Avatar Submission";
                      body := join (newline ++ newline) (lines_of headers row) |} ;;;
       ret successOutput
   end)%platform.

Definition doPost (e : Event) : M (World P) TextOutput :=
  try_catch (doPost_try e) (fun err => ret (errorOutput err)).

End WithJSON.

End Receiver.

Import Receiver.

(** ** A spreadsheet as a grid of cells *)

Module Grid.

(** One tab: its name, the number of columns of its grid, and the cells by
    row; a cell that was never written is the empty string. *)
Record sheet : Type := {
  tab : string;
  maxColumns : nat;
  cells : list (list string)
}.

Record world : Type := {
  clock : string;
  fileId : string;
  tabs : list sheet;
  outbox : list Email;
  mailQuota : nat
}.

Definition blank (s : string) : bool := String.eqb s "".

(** Position, counted from 1, of the last element that satisfies [p]; 0 when
    there is none. *)
Fixpoint lastSuch {A} (p : A -> bool) (l : list A) : nat :=
  match l with
  | [] => 0
  | x :: rest =>
      match lastSuch p rest with
      | 0 => if p x then 1 else 0
      | S k => S (S k)
      end
  end.

Definition hasContent (r : list string) : bool :=
  existsb (fun c => negb (blank c)) r.

(** [getLastRow()] and [getLastColumn()]: the last row and the last column
    that hold content. *)
Definition lastRow (s : sheet) : nat := lastSuch hasContent (cells s).

Definition lastColumn (s : sheet) : nat :=
  list_max (map (lastSuch (fun c => negb (blank c))) (cells s)).

(** The cell in row [r], column [c], both counted from 0. *)
Definition cell (s : sheet) (r c : nat) : string :=
  nth c (nth r (cells s) []) "".

Fixpoint pad {A} (d : A) (n : nat) (l : list A) : list A :=
  match n, l with
  | 0, _ => l
  | S k, [] => d :: pad d k []
  | S k, x :: rest => x :: pad d k rest
  end.

(** Overwrite [l] from position [pos] on with [vals]. *)
Definition writeAt {A} (d : A) (pos : nat) (vals l : list A) : list A :=
  (firstn pos (pad d pos l) ++ vals ++ skipn (pos + List.length vals) l)%list.

Fixpoint writeBlock (c0 : nat) (vals rows : list (list string))
  : list (list string) :=
  match vals with
  | [] => rows
  | v :: vs => writeAt "" c0 v (hd [] rows) :: writeBlock c0 vs (tl rows)
  end.

Fixpoint fromRow (r0 : nat) (f : list (list string) -> list (list string))
  (rows : list (list string)) : list (list string) :=
  match r0 with
  | 0 => f rows
  | S k => hd [] rows :: fromRow k f (tl rows)
  end.

Definition insertBlanks (after howMany : nat) (r : list string) : list string :=
  (firstn after r ++ repeat "" howMany ++ skipn after r)%list.

Definition withCells (s : sheet) (cs : list (list string)) : sheet :=
  {| tab := tab s; maxColumns := maxColumns s; cells := cs |}.

Fixpoint replaceNth {A} (i : nat) (x : A) (l : list A) : list A :=
  match l, i with
  | [], _ => []
  | _ :: rest, 0 => x :: rest
  | y :: rest, S k => y :: replaceNth k x rest
  end.

Definition withTab (w : world) (i : nat) (s : sheet) : world :=
  {| clock := clock w; fileId := fileId w; tabs := replaceNth i s (tabs w);
     outbox := outbox w; mailQuota := mailQuota w |}.

(** Run [f] on the tab behind handle [i]. *)
Definition onTab {A} (i : nat) (f : sheet -> result (A * sheet)) : M world A :=
  fun w =>
    match nth_error (tabs w) i with
    | None => (throw (Error "Sheet not found"), w)
    | Some s =>
        match f s with
        | inl err => (inl err, w)
        | inr (a, s') => (ok a, withTab w i s')
        end
    end.

Fixpoint findTab (n : string) (i : nat) (l : list sheet) : option nat :=
  match l with
  | [] => None
  | s :: rest => if String.eqb (tab s) n then Some i else findTab n (S i) rest
  end.

Definition g_openById (id : string) : M world unit :=
  fun w =>
    if String.eqb id (fileId w) then (ok tt, w)
    else (throw (Error ("Unexpected error while getting the method or property openById on object SpreadsheetApp.")), w).

Definition g_getSheetByName (_ : unit) (n : string) : M world (option nat) :=
  fun w => (ok (findTab n 0 (tabs w)), w).

Definition g_getSheets (_ : unit) : M world (list nat) :=
  fun w => (ok (seq 0 (List.length (tabs w))), w).

Definition g_getLastColumn (i : nat) : M world nat :=
  onTab i (fun s => ok (lastColumn s, s)).

(** Blank columns are inserted to the right of column [after]. *)
Definition insertColumns (after howMany : nat) (s : sheet) : sheet :=
  {| tab := tab s;
     maxColumns := maxColumns s + howMany;
     cells := map (insertBlanks after howMany) (cells s) |}.

Definition g_insertColumnsAfter (i after : nat) (howMany : Z) : M world unit :=
  onTab i (fun s =>
    if (howMany <? 1)%Z then
      throw (Error "The number of columns to insert must be at least 1.")
    else if (after <? 1) || (maxColumns s <? after) then
      throw (Error "Those columns are out of bounds.")
    else
      ok (tt, insertColumns after (Z.to_nat howMany) s)).

(** The cells of the range take the values; every other cell stays. *)
Definition writeRange (row column : nat) (values : list (list string))
  (s : sheet) : sheet :=
  withCells s (fromRow (row - 1) (writeBlock (column - 1) values) (cells s)).

(** The range must lie inside the grid and the data must have its shape. *)
Definition g_setValues (i row column numRows numColumns : nat)
  (values : list (list string)) : M world unit :=
  onTab i (fun s =>
    if (row <? 1) || (column <? 1) || (numRows <? 1) || (numColumns <? 1)
       || (maxColumns s <? column - 1 + numColumns) then
      throw (Error "The coordinates of the range are outside the dimensions of the sheet.")
    else if negb (Nat.eqb (List.length values) numRows)
            || negb (forallb (fun v => Nat.eqb (List.length v) numColumns) values) then
      throw (Error "The number of rows or columns in the data does not match the range.")
    else
      ok (tt, writeRange row column values s)).

(** The row is written below the last row that holds content. *)
Definition append (rowContents : list string) (s : sheet) : sheet :=
  {| tab := tab s;
     maxColumns := Nat.max (maxColumns s) (List.length rowContents);
     cells := fromRow (lastRow s) (fun rows => rowContents :: tl rows) (cells s) |}.

Definition g_appendRow (i : nat) (rowContents : list string) : M world unit :=
  onTab i (fun s => ok (tt, append rowContents s)).

Definition g_sendEmail (m : Email) : M world unit :=
  fun w =>
    match mailQuota w with
    | 0 => (throw (Error "Service invoked too many times for one day: email."), w)
    | S q =>
        (ok tt, {| clock := clock w; fileId := fileId w; tabs := tabs w;
                   outbox := (outbox w ++ [m])%list; mailQuota := q |})
    end.

Definition g_toISOString : M world string := fun w => (ok (clock w), w).

Definition platform : Platform :=
  {| World := world;
     Spreadsheet := unit;
     Sheet := nat;
     toISOString := g_toISOString;
     openById := g_openById;
     getSheetByName := g_getSheetByName;
     getSheets := g_getSheets;
     getLastColumn := g_getLastColumn;
     insertColumnsAfter := g_insertColumnsAfter;
     setValues := g_setValues;
     appendRow := g_appendRow;
     sendEmail := g_sendEmail |}.

(** What steps 4 and 5 of [doPost] do to the tab they write to. *)
Definition persisted (headers row : list string) (s : sheet) : sheet :=
  let n := List.length headers in
  append row
    (writeRange 1 1 [headers]
       (if lastColumn s <? n
        then insertColumns (if Nat.eqb (lastColumn s) 0 then 1 else lastColumn s)
                           (n - lastColumn s) s
        else s)).

(** The tab [doPost] selects: the one named [SHEET_NAME], or else the
    first. *)
Definition selected (w : world) : option nat :=
  match findTab SHEET_NAME 0 (tabs w) with
  | Some i => Some i
  | None => hd_error (seq 0 (List.length (tabs w)))
  end.

(** The mail of step 6. *)
Definition notice (headers row : list string) : Email :=
  {| to := EMAIL_TO;
     subject := "New Ideal Avatar Submission";
     body := join (newline ++ newline) (lines_of headers row) |}.

End Grid.

(** ** The contact form (script.js) *)

Module Client.

Record Button : Type := {
  innerText : string;
  disabled : bool
}.

(** The two functions handed to [setTimeout], each closed over
    [originalText]. *)
Inductive Callback : Type :=
| RestoreAfterSent (originalText : string)
| RestoreAfterError (originalText : string).

Record Timer : Type := {
  due : N;
  callback : Callback
}.

(** What the submit handler reads and writes.  Time is the clock of the
    timer queue, in milliseconds. *)
Record Page : Type := {
  (** [contactForm.querySelector('button')], or null *)
  button : option Button;
  (** the current values of the controls of the form, and the values
      [reset] gives them back *)
  fields : list (string * string);
  defaults : list (string * string);
  (** the class list of [#formSuccess], or null when the page has no such
      element *)
  formSuccess : option (list string);
  console : list (string * exn);
  alerts : list string;
  timers : list Timer;
  clock : N
}.

(** How the promise returned by [fetch] settles. *)
Inductive Settled : Type :=
| Fulfilled (ok : bool)
| Rejected (reason : exn).

Definition setButton (b : option Button) (p : Page) : Page :=
  {| button := b; fields := fields p; defaults := defaults p;
     formSuccess := formSuccess p; console := console p; alerts := alerts p;
     timers := timers p; clock := clock p |}.

Definition setFields (f : list (string * string)) (p : Page) : Page :=
  {| button := button p; fields := f; defaults := defaults p;
     formSuccess := formSuccess p; console := console p; alerts := alerts p;
     timers := timers p; clock := clock p |}.

Definition setFormSuccess (c : option (list string)) (p : Page) : Page :=
  {| button := button p; fields := fields p; defaults := defaults p;
     formSuccess := c; console := console p; alerts := alerts p;
     timers := timers p; clock := clock p |}.

Definition setConsole (c : list (string * exn)) (p : Page) : Page :=
  {| button := button p; fields := fields p; defaults := defaults p;
     formSuccess := formSuccess p; console := c; alerts := alerts p;
     timers := timers p; clock := clock p |}.

Definition setAlerts (a : list string) (p : Page) : Page :=
  {| button := button p; fields := fields p; defaults := defaults p;
     formSuccess := formSuccess p; console := console p; alerts := a;
     timers := timers p; clock := clock p |}.

Definition setTimers (t : list Timer) (p : Page) : Page :=
  {| button := button p; fields := fields p; defaults := defaults p;
     formSuccess := formSuccess p; console := console p; alerts := alerts p;
     timers := t; clock := clock p |}.

Definition setClock (c : N) (p : Page) : Page :=
  {| button := button p; fields := fields p; defaults := defaults p;
     formSuccess := formSuccess p; console := console p; alerts := alerts p;
     timers := timers p; clock := c |}.

(** [btn.innerText], throwing when [btn] is null. *)
Definition get_innerText : M Page string :=
  fun p =>
    match button p with
    | Some b => (ok (innerText b), p)
    | None =>
        (throw (TypeError "Cannot read properties of null (reading 'innerText')"), p)
    end.

(** [btn.innerText = t] *)
Definition set_innerText (t : string) : M Page unit :=
  fun p =>
    match button p with
    | Some b => (ok tt, setButton (Some {| innerText := t; disabled := disabled b |}) p)
    | None =>
        (throw (TypeError "Cannot set properties of null (setting 'innerText')"), p)
    end.

(** [btn.disabled = d] *)
Definition set_disabled (d : bool) : M Page unit :=
  fun p =>
    match button p with
    | Some b => (ok tt, setButton (Some {| innerText := innerText b; disabled := d |}) p)
    | None =>
        (throw (TypeError "Cannot set properties of null (setting 'disabled')"), p)
    end.

(** [contactForm.reset()] *)
Definition reset : M Page unit :=
  fun p => (ok tt, setFields (defaults p) p).

Definition hasClass (c : string) (l : list string) : bool :=
  existsb (String.eqb c) l.

(** [formSuccess.classList.add(c)] *)
Definition classList_add (c : string) : M Page unit :=
  fun p =>
    match formSuccess p with
    | Some l =>
        (ok tt, setFormSuccess (Some (if hasClass c l then l else (l ++ [c])%list)) p)
    | None =>
        (throw (TypeError "Cannot read properties of null (reading 'classList')"), p)
    end.

(** [formSuccess.classList.remove(c)] *)
Definition classList_remove (c : string) : M Page unit :=
  fun p =>
    match formSuccess p with
    | Some l =>
        (ok tt, setFormSuccess (Some (filter (fun x => negb (String.eqb c x)) l)) p)
    | None =>
        (throw (TypeError "Cannot read properties of null (reading 'classList')"), p)
    end.

(** [setTimeout(cb, delay)] *)
Definition setTimeout (cb : Callback) (delay : N) : M Page unit :=
  fun p =>
    (ok tt, setTimers (timers p ++ [{| due := (clock p + delay)%N; callback := cb |}])%list p).

(** [console.error(label, error)] *)
Definition console_error (label : string) (error : exn) : M Page unit :=
  fun p => (ok tt, setConsole (console p ++ [(label, error)])%list p).

(** [alert(text)]: the dialog stays open for [openFor] milliseconds, and no
    timer runs before it is closed. *)
Definition alert (text : string) (openFor : N) : M Page unit :=
  fun p => (ok tt, setClock (clock p + openFor)%N (setAlerts (alerts p ++ [text])%list p)).

(** The body of a timer callback. *)
Definition run (cb : Callback) : M Page unit :=
  match cb with
  | RestoreAfterSent originalText =>
      (set_innerText originalText ;;;
       set_disabled false ;;;
       classList_remove "visible")%platform
  | RestoreAfterError originalText =>
      (set_innerText originalText ;;;
       set_disabled false)%platform
  end.

Fixpoint insertByDue (t : Timer) (l : list Timer) : list Timer :=
  match l with
  | [] => [t]
  | u :: rest => if (due u <=? due t)%N then u :: insertByDue t rest else t :: l
  end.

(** The timers in the order in which they run: by due time, and by
    registration among equals. *)
Definition byDue (l : list Timer) : list Timer :=
  fold_left (fun acc t => insertByDue t acc) l [].

(** [dt] milliseconds pass with the page idle: every timer that has come due
    runs; an exception thrown by a callback ends that callback only. *)
Definition advance (dt : N) (p : Page) : Page :=
  let now := (clock p + dt)%N in
  let ready := byDue (filter (fun t => (due t <=? now)%N) (timers p)) in
  let later := filter (fun t => negb (due t <=? now)%N) (timers p) in
  fold_left (fun q t => snd (run (callback t) q)) ready
            (setClock now (setTimers later p)).

(** [await fetch(contactForm.action, ...)]: the request is in flight for
    [latency] milliseconds, then the promise settles. *)
Definition fetch (latency : N) (outcome : Settled) : M Page bool :=
  fun p =>
    match outcome with
    | Fulfilled ok_ => (ok ok_, advance latency p)
    | Rejected reason => (throw reason, advance latency p)
    end.

(** The text of the alert. *)
Definition apology : string :=
  "Something went wrong. Please try again later or email us directly.".

(** The listener added to [contactForm] for [submit].  [preventDefault] and
    the [FormData] snapshot leave the page as it is. *)
Definition onSubmit (latency : N) (outcome : Settled) (alertOpenFor : N)
  : M Page unit :=
  (originalText <- get_innerText ;;
   set_innerText "Sending..." ;;;
   set_disabled true ;;;
   try_catch
     (response_ok <- fetch latency outcome ;;
      if response_ok then
        set_innerText "Message Sent" ;;;
        reset ;;;
        classList_add "visible" ;;;
        setTimeout (RestoreAfterSent originalText) 4000%N
      else
        lift (throw (Error "Form submission failed")))
     (fun error =>
        console_error "Error:" error ;;;
        set_innerText "Error" ;;;
        setTimeout (RestoreAfterError originalText) 3000%N ;;;
        alert apology alertOpenFor))%platform.

End Client.

(** ** The page effects (script.js): header on scroll, fade-in on sight *)

Module Effects.

Import QArith_base.
Local Close Scope Q_scope.

(** [classList.add(c)] and [classList.remove(c)] on the tokens of a class
    list. *)
Definition add (c : string) (l : list string) : list string :=
  if Client.hasClass c l then l else (l ++ [c])%list.

Definition remove (c : string) (l : list string) : list string :=
  filter (fun x => negb (String.eqb c x)) l.

(** The window: how far the page is scrolled, in CSS pixels, and the class
    list of the element [document.querySelector('.header')] found, or null. *)
Record Window : Type := {
  scrollY : Q;
  header : option (list string)
}.

(** The listener added to [window] for [scroll]. *)
Definition onScroll (w : Window) : result Window :=
  match header w with
  | None =>
      throw (TypeError "Cannot read properties of null (reading 'classList')")
  | Some l =>
      ok {| scrollY := scrollY w;
            header := Some (if negb (Qle_bool (scrollY w) (50 # 1)%Q)
                            then add "scrolled" l
                            else remove "scrolled" l) |}
  end.

(** An entry handed to the observer's callback: the element it is about,
    and whether the element is in sight. *)
Record Entry : Type := {
  target : nat;
  isIntersecting : bool
}.

(** The elements by number, each with its class list, and the elements the
    observer watches. *)
Record Dom : Type := {
  classList : nat -> list string;
  observed : list nat
}.

(** [observer.observe(el)] *)
Definition observe (el : nat) (d : Dom) : Dom :=
  {| classList := classList d;
     observed := if existsb (Nat.eqb el) (observed d) then observed d
                 else (observed d ++ [el])%list |}.

(** [observer.unobserve(el)] *)
Definition unobserve (el : nat) (d : Dom) : Dom :=
  {| classList := classList d;
     observed := filter (fun x => negb (Nat.eqb el x)) (observed d) |}.

(** [el.classList.add(c)] *)
Definition addClass (el : nat) (c : string) (d : Dom) : Dom :=
  {| classList := fun x => if Nat.eqb x el then add c (classList d x)
                           else classList d x;
     observed := observed d |}.

(** The body of [entries.forEach] in the callback of the observer. *)
Definition reveal (d : Dom) (entry : Entry) : Dom :=
  if isIntersecting entry
  then unobserve (target entry) (addClass (target entry) "visible" d)
  else d.

(** The callback of the [IntersectionObserver]. *)
Definition callback (entries : list Entry) (d : Dom) : Dom :=
  fold_left reveal entries d.

(** [fadeElements.forEach(el => observer.observe(el))] *)
Definition observeAll (fadeElements : list nat) (d : Dom) : Dom :=
  fold_left (fun d el => observe el d) fadeElements d.

End Effects.

(** ** The words of the specification, for comparison with the code *)

Module Spec.




(** A label the separator cannot cut: it has no [|]. *)
Fixpoint noBar (s : string) : bool :=
  match s with
  | EmptyString => true
  | String c rest => negb (Ascii.eqb c "|") && noBar rest
  end.

(** A label as the client lists it: not empty, no [|], and no white space
    around it. *)
Definition plainLabel (l : string) : bool :=
  noBar l && negb (String.eqb l "") && String.eqb (trim l) l.

(** A batch of entries reports element [el] in sight. *)
Definition inSight (entries : list Effects.Entry) (el : nat) : bool :=
  existsb (fun e => Effects.isIntersecting e && Nat.eqb el (Effects.target e))
          entries.

End Spec.

(** ** Requests, spreadsheets and pages used as examples *)

Module Examples.

(** A [JSON.parse] that knows three texts and rejects every other one. *)
Definition parseThree (text : string) : result value :=
  if String.eqb text "{}" then ok (VObj [])
  else if String.eqb text "[]" then ok (VArr [])
  else if String.eqb text "null" then ok VNull
  else throw (Exn "SyntaxError" "Unexpected end of JSON input").

Definition urlencoded (text : string) : Event :=
  {| postData := Some {| type := "application/x-www-form-urlencoded";
                         contents := text |};
     parameter := None |}.

(** The request of the round-trip example. *)
Definition johnDoe : Event :=
  urlencoded "Name=John+Doe&Email=john%40example.com&_field_order=Name|||Email".

(** A form without labelled questions sends an empty order hint. *)
Definition emptyHint : Event := urlencoded "Name=x&_field_order=".

Definition brokenJSON : Event :=
  {| postData := Some {| type := "application/json"; contents := "{" |};
     parameter := None |}.

Definition preParsed : Event :=
  {| postData := Some {| type := "application/x-www-form-urlencoded";
                         contents := "ignored=1" |};
     parameter := Some [("Name", VArr [VStr "Ann"; VStr "Bob"]);
                        ("Email", VStr "ann@example.com")] |}.

(** A spreadsheet whose tab already has a four-column header and one
    record. *)
Definition fourColumns : Grid.world :=
  {| Grid.clock := "2024-05-01T10:00:00.000Z";
     Grid.fileId := SHEET_ID;
     Grid.tabs :=
       [ {| Grid.tab := "Notes"; Grid.maxColumns := 26; Grid.cells := [["memo"]] |};
         {| Grid.tab := "Sheet1"; Grid.maxColumns := 26;
            Grid.cells := [["Timestamp"; "A"; "B"; "C"]; ["t"; "1"; "2"; "3"]] |} ];
     Grid.outbox := [];
     Grid.mailQuota := 5 |}.

(** A page with one field filled in and no success indicator. *)
Definition noIndicator : Client.Page :=
  {| Client.button := Some {| Client.innerText := "Send"; Client.disabled := false |};
     Client.fields := [("name", "Ann")];
     Client.defaults := [("name", "")];
     Client.formSuccess := None;
     Client.console := [];
     Client.alerts := [];
     Client.timers := [];
     Client.clock := 100%N |}.

Definition withIndicator : Client.Page :=
  Client.setFormSuccess (Some ["success-message"]) noIndicator.

(** A page scrolled by 120 pixels whose header has not been marked yet. *)
Definition scrolledDown : Effects.Window :=
  {| Effects.scrollY := QArith_base.Qmake 120 1;
     Effects.header := Some ["header"] |}.

(** Three elements that fade in, none of them shown yet, and no observer
    at work. *)
Definition threeCards : Effects.Dom :=
  {| Effects.classList := fun _ => ["fade-up"];
     Effects.observed := [] |}.

End Examples.

(** * Properties *)

Import Examples.

(** ** Building the row *)

Section Rows.

Variable JSON_parse : string -> result value.



(** C1, the code at the failing input.  The request [Name=x&_field_order=]
    carries an empty order hint; the hint is not removed, the header lists
    [_field_order] and the row has a cell for it. *)
Theorem empty_hint_is_listed (timestamp : string) :
  record_of JSON_parse timestamp emptyHint
  = ok (["Timestamp"; "Name"; "_field_order"], [timestamp; "x"; ""]).
Proof. reflexivity. Qed.

(** C3.  A request that is not JSON, has no pre-parsed parameters, and whose
    body is [Name=John+Doe&Email=john%40example.com&_field_order=Name|||Email]
    gives the header Timestamp, Name, Email and the row timestamp, John Doe,
    john@example.com. *)
Theorem round_trip (timestamp : string) (e : Event) :
  isJSON e = false ->
  hasParameters e = false ->
  contentsOf e = "Name=John+Doe&Email=john%40example.com&_field_order=Name|||Email" ->
  record_of JSON_parse timestamp e
  = ok (["Timestamp"; "Name"; "Email"],
        [timestamp; "John Doe"; "john@example.com"]).
Proof.
  intros Hj Hp Hc. unfold record_of, data_of.
  rewrite Hj, Hp.
  assert (Hh : hasContents e = true).
  { unfold hasContents, contentsOf in *. destruct (postData e) as [pd|].
    - rewrite Hc. reflexivity.
    - discriminate Hc. }
  rewrite Hh, Hc. reflexivity.
Qed.

(** C5.  When the content type is JSON and [JSON.parse] throws on the body,
    steps 1 to 3 do not throw: the header is Timestamp alone and the row is
    the timestamp alone. *)
Theorem malformed_json_degrades (timestamp : string) (e : Event) (err : exn) :
  isJSON e = true ->
  JSON_parse (if String.eqb (contentsOf e) "" then "{}" else contentsOf e) = inl err ->
  data_of JSON_parse e = ok (VObj [])
  /\ record_of JSON_parse timestamp e = ok (["Timestamp"], [timestamp]).
Proof.
  intros Hj Hp. unfold record_of, data_of. rewrite Hj, Hp. split; reflexivity.
Qed.

End Rows.

Lemma round_trip_witness :
  isJSON johnDoe = false
  /\ hasParameters johnDoe = false
  /\ record_of parseThree "2024-05-01T10:00:00.000Z" johnDoe
     = ok (["Timestamp"; "Name"; "Email"],
           ["2024-05-01T10:00:00.000Z"; "John Doe"; "john@example.com"]).
Proof.
  split; [reflexivity | split; [reflexivity |]].
  apply (round_trip parseThree "2024-05-01T10:00:00.000Z" johnDoe); reflexivity.
Defined.

Lemma malformed_json_degrades_witness :
  isJSON brokenJSON = true
  /\ data_of parseThree brokenJSON = ok (VObj [])
  /\ record_of parseThree "2024-05-01T10:00:00.000Z" brokenJSON
     = ok (["Timestamp"], ["2024-05-01T10:00:00.000Z"]).
Proof.
  split; [reflexivity |].
  apply (malformed_json_degrades parseThree "2024-05-01T10:00:00.000Z" brokenJSON
           (Exn "SyntaxError" "Unexpected end of JSON input")); reflexivity.
Defined.

(** ** The order hint *)

Lemma append_empty_r (s : string) : s ++ "" = s.
Proof. induction s as [|c s IH]; simpl; [reflexivity | now rewrite IH]. Qed.

Lemma append_assoc (s t u : string) : (s ++ t) ++ u = s ++ (t ++ u).
Proof. induction s as [|c s IH]; simpl; [reflexivity | now rewrite IH]. Qed.






Lemma prefix_other (c : ascii) (sep' s : string) :
  Ascii.eqb c "|" = false -> prefix (String "|" sep') (String c s) = false.
Proof.
  intros Hc. cbn [prefix].
  destruct (ascii_dec "|" c) as [<-|_]; [discriminate Hc | reflexivity].
Qed.

Lemma split_plain (s : string) :
  forall cur, Spec.noBar s = true -> split_from "|||" 0 cur s = [cur ++ s].
Proof.
  induction s as [|c s IH]; intros cur Hs.
  - cbn [split_from]. now rewrite append_empty_r.
  - cbn [Spec.noBar] in Hs. apply andb_true_iff in Hs as [Hc Hs].
    apply negb_true_iff in Hc.
    cbn [split_from]. rewrite (prefix_other c _ s Hc).
    rewrite IH by exact Hs. rewrite append_assoc. reflexivity.
Qed.

Lemma split_at_separator (s : string) :
  forall cur t, Spec.noBar s = true ->
    split_from "|||" 0 cur (s ++ "|||" ++ t)
    = (cur ++ s) :: split_from "|||" 0 "" t.
Proof.
  induction s as [|c s IH]; intros cur t Hs.
  - rewrite append_empty_r.
    change ("" ++ "|||" ++ t) with (String "|" (String "|" (String "|" t))).
    cbn [split_from].
    replace (prefix "|||" (String "|" (String "|" (String "|" t)))) with true.
    + reflexivity.
    + cbn [prefix]. repeat (destruct (ascii_dec "|" "|") as [_|Hn]; [| now elim Hn]).
      now destruct t.
  - cbn [Spec.noBar] in Hs. apply andb_true_iff in Hs as [Hc Hs].
    apply negb_true_iff in Hc.
    change (String c s ++ "|||" ++ t) with (String c (s ++ "|||" ++ t)).
    cbn [split_from]. rewrite (prefix_other c _ _ Hc).
    rewrite IH by exact Hs. rewrite append_assoc. reflexivity.
Qed.

(** Splitting undoes joining, for labels without [|]. *)
Lemma split_join (l : string) (ls : list string) :
  Forall (fun x => Spec.noBar x = true) (l :: ls) ->
  split "|||" (join "|||" (l :: ls)) = l :: ls.
Proof.
  revert l. induction ls as [|l2 ls IH]; intros l Hall.
  - inversion Hall; subst. unfold split. simpl. now apply split_plain.
  - inversion Hall as [|? ? Hl Hrest]; subst.
    unfold split.
    change (join "|||" (l :: l2 :: ls)) with (l ++ "|||" ++ join "|||" (l2 :: ls)).
    rewrite split_at_separator by exact Hl. simpl append.
    f_equal. apply IH. exact Hrest.
Qed.

(** X1.  For a hint that lists the plain labels L1..Ln (n >= 1) joined by
    [|||], the header is Timestamp, L1, ..., Ln: splitting the hint gives back
    the labels the client joined. *)
Lemma header_lists_the_labels (props : list (string * value))
  (l : string) (ls : list string) :
  Forall (fun x => Spec.plainLabel x = true) (l :: ls) ->
  assoc FIELD_ORDER props = Some (VStr (join "|||" (l :: ls))) ->
  (od <- fieldOrder_of (VObj props) ;; ok (headers_of (fst od)))%result
  = ok ("Timestamp" :: l :: ls).
Proof.
  intros Hall Hk.
  assert (Hbar : Forall (fun x => Spec.noBar x = true) (l :: ls)).
  { eapply Forall_impl; [| exact Hall]. intros x Hx. unfold Spec.plainLabel in Hx.
    now apply andb_true_iff in Hx as [Hx _]; apply andb_true_iff in Hx as [Hx _]. }
  assert (Hne : join "|||" (l :: ls) <> "").
  { inversion Hall as [|? ? Hl _]; subst. unfold Spec.plainLabel in Hl.
    apply andb_true_iff in Hl as [Hl _]. apply andb_true_iff in Hl as [_ Hl].
    apply negb_true_iff, String.eqb_neq in Hl.
    destruct l; [congruence |]. destruct ls; discriminate. }
  apply String.eqb_neq in Hne.
  unfold fieldOrder_of, Get, ok, rbind. rewrite Hk.
  cbn [ToBoolean ToString]. rewrite Hne. cbn [negb fst].
  unfold headers_of, splitLabels. do 2 f_equal.
  rewrite split_join by exact Hbar.
  clear Hk Hne Hbar. induction Hall as [|x xs Hx _ IH]; [reflexivity |].
  unfold Spec.plainLabel in Hx.
  apply andb_true_iff in Hx as [Hx Htrim]. apply andb_true_iff in Hx as [_ Hx].
  apply String.eqb_eq in Htrim. simpl. rewrite Htrim, Hx. now rewrite IH.
Qed.



(** A hint that is present but falsy stays in the object and is listed
    with the other keys; its value is written to the row. *)
Example falsy_hint_is_kept :
  (od <- fieldOrder_of (VObj [("_field_order", VNum "0"); ("a", VNum "1")]) ;;
   row <- row_of "t" (fst od) (snd od) ;;
   ok (headers_of (fst od), row))%result
  = ok (["Timestamp"; "_field_order"; "a"], ["t"; "0"; "1"]).
Proof. reflexivity. Qed.

(** ** Parsing the body *)















Section Parsing.

Variable JSON_parse : string -> result value.


End Parsing.

(** Pre-parsed parameters win over the raw body, and a repeated parameter
    is taken by its first value. *)
Example preParsed_first_values :
  data_of parseThree preParsed
  = ok (VObj [("Name", VStr "Ann"); ("Email", VStr "ann@example.com")]).
Proof. reflexivity. Qed.

(** A pair is cut at its first [=]; both sides are decoded. *)
Example decodePair_cuts_at_first_equals :
  decodePair "a%20b=c=d+e" = ok ("a b", "c=d e").
Proof. reflexivity. Qed.

(** A key met three times holds its three values in order. *)
Example repeated_key_accumulates :
  parseQueryString "a=1&b=x%20y&a=2&&a=3+4"
  = ok (VObj [("a", VArr [VStr "1"; VStr "2"; VStr "3 4"]); ("b", VStr "x y")]).
Proof. reflexivity. Qed.

(** ** The response *)

Section Response.

Variable JSON_parse : string -> result value.
Variable P : Platform.




End Response.

(** A body that does not decode: the URIError of step 1 is reported. *)
Example parsing_failure_is_reported :
  doPost parseThree Grid.platform (urlencoded "Name=%") fourColumns
  = (ok (errorOutput (URIError "URI malformed")), fourColumns).
Proof. reflexivity. Qed.

(** No spreadsheet under the configured id: the error of [openById] is
    reported and nothing is written. *)
Example persistence_failure_is_reported :
  let w := {| Grid.clock := "t"; Grid.fileId := "another"; Grid.tabs := [];
              Grid.outbox := []; Grid.mailQuota := 1 |} in
  exists err, doPost parseThree Grid.platform johnDoe w = (ok (errorOutput err), w).
Proof. eexists. reflexivity. Qed.

(** The mail quota is used up: the error of [sendEmail] is reported, after
    the row was appended. *)
Example notification_failure_is_reported :
  let w := {| Grid.clock := "t"; Grid.fileId := SHEET_ID;
              Grid.tabs := [ {| Grid.tab := "Sheet1"; Grid.maxColumns := 26;
                                Grid.cells := [] |} ];
              Grid.outbox := []; Grid.mailQuota := 0 |} in
  doPost parseThree Grid.platform johnDoe w
  = (ok (errorOutput (Error "Service invoked too many times for one day: email.")),
     {| Grid.clock := "t"; Grid.fileId := SHEET_ID;
        Grid.tabs := [ {| Grid.tab := "Sheet1"; Grid.maxColumns := 29;
                          Grid.cells := [["Timestamp"; "Name"; "Email"];
                                         ["t"; "John Doe"; "john@example.com"]] |} ];
        Grid.outbox := []; Grid.mailQuota := 0 |}).
Proof. reflexivity. Qed.

(** ** What is written to the spreadsheet *)

Section Persist.

Import Grid.

Lemma lastSuch_beyond {A} (p : A -> bool) (l : list A) :
  forall i x, lastSuch p l <= i -> nth_error l i = Some x -> p x = false.
Proof.
  induction l as [|x0 l IH]; intros i x Hle Hnth.
  - destruct i; discriminate Hnth.
  - cbn [lastSuch] in Hle. destruct i as [|j]; cbn [nth_error] in Hnth.
    + injection Hnth as <-.
      destruct (lastSuch p l); [| lia]. destruct (p x0); [lia | reflexivity].
    + apply (IH j x); [| exact Hnth].
      destruct (lastSuch p l); [lia |]. lia.
Qed.

Lemma lastSuch_map {A} (p : A -> bool) (f : A -> A) (l : list A) :
  (forall x, p (f x) = p x) -> lastSuch p (map f l) = lastSuch p l.
Proof.
  intros Hf. induction l as [|x l IH]; [reflexivity |].
  cbn [map lastSuch]. now rewrite IH, Hf.
Qed.

Lemma existsb_false_In {A} (p : A -> bool) (l : list A) (x : A) :
  existsb p l = false -> In x l -> p x = false.
Proof.
  intros Hex Hin. destruct (p x) eqn:Hp; [| reflexivity].
  assert (existsb p l = true) by (apply existsb_exists; eauto). congruence.
Qed.

Lemma blank_eq (x : string) : negb (blank x) = false -> x = "".
Proof.
  unfold blank. intros H. apply negb_false_iff in H. now apply String.eqb_eq.
Qed.

(** Nothing is written to the right of the last column that holds content. *)
Lemma row_blank_beyond (r : list string) (c : nat) :
  lastSuch (fun x => negb (blank x)) r <= c -> nth c r "" = "".
Proof.
  intros Hle. destruct (nth_error r c) as [x|] eqn:Hnth.
  - rewrite (nth_error_nth _ _ _ Hnth).
    apply blank_eq. exact (lastSuch_beyond _ r c x Hle Hnth).
  - apply nth_overflow. now apply nth_error_None.
Qed.

Lemma blank_beyond_lastColumn (s : sheet) (r c : nat) :
  lastColumn s <= c -> cell s r c = "".
Proof.
  unfold lastColumn, cell. intros Hle.
  destruct (nth_in_or_default r (cells s) []) as [Hin|Hdef].
  - apply row_blank_beyond.
    assert (Hall : Forall (fun k => k <= c)
                     (map (lastSuch (fun x => negb (blank x))) (cells s)))
      by now apply list_max_le.
    rewrite Forall_forall in Hall. apply Hall. now apply in_map.
  - rewrite Hdef. now destruct c.
Qed.

(** Nothing is written below the last row that holds content. *)
Lemma blank_beyond_lastRow (s : sheet) (r c : nat) :
  lastRow s <= r -> cell s r c = "".
Proof.
  unfold lastRow, cell. intros Hle.
  destruct (nth_error (cells s) r) as [x|] eqn:Hnth.
  - rewrite (nth_error_nth _ _ _ Hnth).
    pose proof (lastSuch_beyond _ _ r x Hle Hnth) as Hx. unfold hasContent in Hx.
    destruct (nth_in_or_default c x "") as [Hin|Hdef]; [| exact Hdef].
    apply blank_eq. exact (existsb_false_In _ x _ Hx Hin).
  - rewrite (@nth_overflow _ (cells s) r []) by now apply nth_error_None.
    now destruct c.
Qed.

Lemma existsb_repeat_blank (k : nat) :
  existsb (fun x => negb (blank x)) (repeat "" k) = false.
Proof. induction k; [reflexivity | exact IHk]. Qed.

Lemma hasContent_insertBlanks (a k : nat) (r : list string) :
  hasContent (insertBlanks a k r) = hasContent r.
Proof.
  unfold hasContent, insertBlanks.
  rewrite !existsb_app, existsb_repeat_blank. cbn [orb].
  rewrite <- existsb_app, firstn_skipn. reflexivity.
Qed.

(** Columns inserted where the row is blank leave every cell as it was. *)
Lemma nth_insertBlanks (a k : nat) (r : list string) (c : nat) :
  (forall c', a <= c' -> nth c' r "" = "") ->
  nth c (insertBlanks a k r) "" = nth c r "".
Proof.
  intros Hb. unfold insertBlanks.
  destruct (Nat.lt_ge_cases c (List.length (firstn a r))) as [Hlt|Hge].
  - rewrite app_nth1 by exact Hlt. rewrite nth_firstn.
    rewrite length_firstn in Hlt.
    replace (c <? a) with true by (symmetry; apply Nat.ltb_lt; lia). reflexivity.
  - rewrite app_nth2 by exact Hge.
    rewrite length_firstn in *.
    assert (Hright : nth c r "" = "").
    { destruct (Nat.le_gt_cases a c); [now apply Hb | apply nth_overflow; lia]. }
    rewrite Hright.
    set (j := c - Nat.min a (List.length r)).
    destruct (Nat.lt_ge_cases j k) as [Hj|Hj].
    + rewrite app_nth1 by now rewrite repeat_length. apply nth_repeat.
    + rewrite app_nth2 by now rewrite repeat_length.
      rewrite repeat_length, nth_skipn. apply Hb. lia.
Qed.

Lemma nth_tl {A} (l : list A) (j : nat) (d : A) : nth j (tl l) d = nth (S j) l d.
Proof. destruct l; [now destruct j | reflexivity]. Qed.

Lemma nth_fromRow (f : list (list string) -> list (list string)) :
  forall k rows r,
    nth r (fromRow k f rows) []
    = if r <? k then nth r rows [] else nth (r - k) (f (skipn k rows)) [].
Proof.
  induction k as [|k IH]; intros rows r; cbn [fromRow].
  - now rewrite Nat.sub_0_r.
  - destruct r as [|r].
    + now destruct rows.
    + cbn [nth]. rewrite IH, nth_tl.
      change (S r <? S k) with (r <? k). change (S r - S k) with (r - k).
      destruct rows; [now rewrite skipn_nil | reflexivity].
Qed.

Lemma insertColumns_cell (a k : nat) (s : sheet) (r c : nat) :
  lastColumn s <= a -> cell (insertColumns a k s) r c = cell s r c.
Proof.
  intros Ha.
  assert (Hb : forall c', a <= c' -> cell s r c' = "")
    by (intros c' Hc'; apply blank_beyond_lastColumn; lia).
  unfold cell, insertColumns in *. cbn [cells].
  destruct (nth_error (cells s) r) as [x|] eqn:Hnth.
  - rewrite (nth_error_nth (map (insertBlanks a k) (cells s)) r []
               (x := insertBlanks a k x))
      by (rewrite nth_error_map, Hnth; reflexivity).
    rewrite (nth_error_nth _ _ [] Hnth) in *.
    now apply nth_insertBlanks.
  - apply nth_error_None in Hnth.
    rewrite !(@nth_overflow _ _ r []); [reflexivity | exact Hnth |].
    now rewrite length_map.
Qed.

Lemma insertColumns_lastRow (a k : nat) (s : sheet) :
  lastRow (insertColumns a k s) = lastRow s.
Proof.
  unfold lastRow, insertColumns. cbn [cells].
  apply lastSuch_map. intros x. apply hasContent_insertBlanks.
Qed.

Lemma writeRange_header_cells (headers : list string) (s : sheet) :
  cells (writeRange 1 1 [headers] s)
  = (headers ++ skipn (List.length headers) (hd [] (cells s)))%list :: tl (cells s).
Proof. reflexivity. Qed.

(** A header that starts with a non-blank label makes row 1 a row with
    content. *)
Lemma writeRange_header_lastRow (h : string) (hs : list string) (s : sheet) :
  blank h = false ->
  lastRow (writeRange 1 1 [h :: hs] s) = Nat.max 1 (lastRow s).
Proof.
  intros Hh. unfold lastRow. rewrite writeRange_header_cells.
  cbn [lastSuch hasContent existsb app]. rewrite Hh. cbn [negb orb].
  destruct (cells s) as [|x0 t]; cbn [tl lastSuch]; [reflexivity |].
  destruct (lastSuch hasContent t); [| lia].
  destruct (hasContent x0); reflexivity.
Qed.

Lemma writeRange_header_cell (headers : list string) (s : sheet) (r c : nat) :
  cell (writeRange 1 1 [headers] s) r c
  = if Nat.eqb r 0
    then if c <? List.length headers then nth c headers "" else cell s 0 c
    else cell s r c.
Proof.
  unfold cell. rewrite writeRange_header_cells.
  destruct r as [|j]; cbn [nth Nat.eqb].
  - destruct (Nat.ltb_spec c (List.length headers)) as [Hlt|Hge].
    + now rewrite app_nth1.
    + rewrite app_nth2 by exact Hge. rewrite nth_skipn.
      replace (List.length headers + (c - List.length headers)) with c by lia.
      now destruct (cells s).
  - now rewrite nth_tl.
Qed.

Lemma append_cell (row : list string) (s : sheet) (r c : nat) :
  cell (append row s) r c
  = if Nat.eqb r (lastRow s) then nth c row "" else cell s r c.
Proof.
  unfold cell, append. cbn [cells]. rewrite nth_fromRow.
  destruct (Nat.ltb_spec r (lastRow s)) as [Hlt|Hge].
  - replace (Nat.eqb r (lastRow s)) with false
      by (symmetry; apply Nat.eqb_neq; lia).
    reflexivity.
  - destruct (Nat.eqb_spec r (lastRow s)) as [->|Hne].
    + now rewrite Nat.sub_diag.
    + destruct (r - lastRow s) as [|j] eqn:Hj; [lia |].
      cbn [nth]. rewrite nth_tl, nth_skipn.
      replace (lastRow s + S j) with r by lia. reflexivity.
Qed.

(** The sheet after steps 4 and 5, cell by cell: the header in the first
    cells of row 1, the new row below the last row with content, and every
    other cell as before. *)
Lemma persisted_cell (h : string) (hs row : list string) (s : sheet) (r c : nat) :
  blank h = false ->
  cell (persisted (h :: hs) row s) r c
  = if Nat.eqb r 0
    then if c <? List.length (h :: hs) then nth c (h :: hs) "" else cell s 0 c
    else if Nat.eqb r (Nat.max 1 (lastRow s)) then nth c row "" else cell s r c.
Proof.
  intros Hh. unfold persisted.
  set (n := List.length (h :: hs)).
  set (s1 := if lastColumn s <? n then _ else s).
  assert (Hcell : forall r c, cell s1 r c = cell s r c).
  { intros r' c'. subst s1. destruct (lastColumn s <? n); [| reflexivity].
    apply insertColumns_cell. destruct (Nat.eqb (lastColumn s) 0) eqn:H0; [| lia].
    apply Nat.eqb_eq in H0. lia. }
  assert (Hrow : lastRow s1 = lastRow s).
  { subst s1. destruct (lastColumn s <? n); [| reflexivity].
    apply insertColumns_lastRow. }
  rewrite append_cell, writeRange_header_lastRow by exact Hh.
  rewrite writeRange_header_cell, Hrow, !Hcell.
  destruct (Nat.eqb_spec r 0) as [->|Hr]; [| reflexivity].
  replace (Nat.eqb 0 (Nat.max 1 (lastRow s))) with false
    by (symmetry; apply Nat.eqb_neq; lia).
  reflexivity.
Qed.

Lemma persisted_maxColumns (headers row : list string) (s : sheet) :
  maxColumns (persisted headers row s)
  = Nat.max (if lastColumn s <? List.length headers
             then maxColumns s + (List.length headers - lastColumn s)
             else maxColumns s)
            (List.length row).
Proof.
  unfold persisted. cbn [append maxColumns writeRange withCells].
  destruct (lastColumn s <? List.length headers); reflexivity.
Qed.

Lemma persisted_tab (headers row : list string) (s : sheet) :
  tab (persisted headers row s) = tab s.
Proof.
  unfold persisted. cbn [append tab writeRange withCells].
  destruct (lastColumn s <? List.length headers); reflexivity.
Qed.

Lemma replaceNth_twice {A} (i : nat) (x y : A) (l : list A) :
  replaceNth i y (replaceNth i x l) = replaceNth i y l.
Proof.
  revert i. induction l as [|z l IH]; intros [|i]; cbn [replaceNth];
    try reflexivity.
  now rewrite IH.
Qed.

Lemma nth_error_replaceNth {A} (i : nat) (x y : A) (l : list A) :
  nth_error l i = Some y -> nth_error (replaceNth i x l) i = Some x.
Proof.
  revert i. induction l as [|z l IH]; intros [|i]; cbn [replaceNth nth_error];
    try discriminate; [reflexivity | apply IH].
Qed.

Lemma onTab_run {A} (i : nat) (f : sheet -> result (A * sheet)) (w : world)
  (s : sheet) :
  nth_error (tabs w) i = Some s ->
  onTab i f w
  = match f s with
    | inl err => (inl err, w)
    | inr (a, s') => (ok a, withTab w i s')
    end.
Proof. intros Hs. unfold onTab. now rewrite Hs. Qed.

Lemma onTab_again {A} (i : nat) (f : sheet -> result (A * sheet)) (w : world)
  (s0 s : sheet) :
  nth_error (tabs w) i = Some s0 ->
  onTab i f (withTab w i s)
  = match f s with
    | inl err => (inl err, withTab w i s)
    | inr (a, s') => (ok a, withTab w i s')
    end.
Proof.
  intros Hs. unfold onTab. cbn [withTab tabs].
  rewrite (nth_error_replaceNth i s s0 _ Hs).
  destruct (f s) as [err|[a s']]; [reflexivity |].
  unfold withTab. cbn [tabs clock fileId outbox mailQuota].
  now rewrite replaceNth_twice.
Qed.

Variable JSON_parse : string -> result value.

(** A request that is answered with success went through every step: the
    record was built, the spreadsheet opened, a tab selected and written to,
    and the mail sent. *)
Lemma success_on_grid (e : Event) (w w' : world) :
  doPost JSON_parse platform e w = (ok successOutput, w') ->
  exists headers row i s,
    record_of JSON_parse (clock w) e = ok (headers, row)
    /\ selected w = Some i
    /\ nth_error (tabs w) i = Some s
    /\ List.length headers
       <= (if lastColumn s <? List.length headers
           then maxColumns s + (List.length headers - lastColumn s)
           else maxColumns s)
    /\ w' = {| clock := clock w;
               fileId := fileId w;
               tabs := replaceNth i (persisted headers row s) (tabs w);
               outbox := (outbox w ++
                          [{| to := EMAIL_TO;
                              subject := "New Ideal Avatar Submission";
                              body := join (newline ++ newline)
                                           (lines_of headers row) |}])%list;
               mailQuota := pred (mailQuota w) |}.
Proof.
  unfold doPost, try_catch.
  destruct (doPost_try JSON_parse platform e w) as [[err|out] w1] eqn:Htry;
    [intros H; discriminate H |].
  intros H. injection H as _ <-.
  unfold doPost_try, bind, lift, ret, ok, throw in Htry. unfold record_of.
  cbn [toISOString openById getSheetByName getSheets getLastColumn
       insertColumnsAfter setValues appendRow sendEmail platform] in Htry.
  destruct (data_of JSON_parse e) as [err|data] eqn:Hdata;
    cbv beta iota in Htry; [discriminate Htry |].
  destruct (fieldOrder_of data) as [err|[fieldOrder data']] eqn:Horder;
    cbv beta iota in Htry; [discriminate Htry |].
  cbn [fst snd] in Htry. unfold g_toISOString, ok in Htry.
  cbv beta iota in Htry.
  destruct (row_of (clock w) fieldOrder data') as [err|row] eqn:Hrow;
    cbv beta iota in Htry; [discriminate Htry |].
  unfold g_openById, g_getSheetByName, g_getSheets, ok, throw in Htry.
  destruct (String.eqb SHEET_ID (fileId w));
    cbv beta iota in Htry; [| discriminate Htry].
  match type of Htry with
  | (let (_, _) := ?X in _) = _ =>
      assert (Heq : X = (inr (selected w), w))
        by (unfold selected; destruct (findTab SHEET_NAME 0 (tabs w)); reflexivity);
      rewrite Heq in Htry; clear Heq
  end.
  destruct (selected w) as [i|] eqn:Hsel;
    cbv beta iota in Htry; [| discriminate Htry].
  unfold g_getLastColumn at 1 in Htry. unfold onTab at 1 in Htry.
  destruct (nth_error (tabs w) i) as [s|] eqn:Hs;
    unfold ok, throw in Htry; cbv beta iota in Htry; [| discriminate Htry].
  set (n := List.length (headers_of fieldOrder)) in *.
  assert (Hensure :
            forall (k : world -> result TextOutput * world),
              (let (r1, w'1) :=
                 (if lastColumn s <? n
                  then
                    fun w0 : world =>
                      let (r1, w'1) := g_getLastColumn i w0 in
                      match r1 with
                      | inl e => (inl e, w'1)
                      | inr a1 =>
                          let (r2, w'2) := g_getLastColumn i w'1 in
                          match r2 with
                          | inl e => (inl e, w'2)
                          | inr a2 =>
                              g_insertColumnsAfter i (if Nat.eqb a1 0 then 1 else a1)
                                (Z.of_nat n - Z.of_nat a2) w'2
                          end
                      end
                  else fun w0 : world => (inr tt, w0)) (withTab w i s) in
               match r1 with
               | inl e => (inl e, w'1)
               | inr _ => k w'1
               end) = (inr out, w1) ->
              k (withTab w i
                   (if lastColumn s <? n
                    then insertColumns (if Nat.eqb (lastColumn s) 0 then 1 else lastColumn s)
                                       (n - lastColumn s) s
                    else s)) = (inr out, w1)).
  { intros k Hk. destruct (Nat.ltb_spec (lastColumn s) n) as [Hlt|Hge].
    - unfold g_getLastColumn, g_insertColumnsAfter in Hk.
      repeat (rewrite (onTab_again i _ w s s Hs) in Hk;
              unfold ok, throw in Hk; cbv beta iota in Hk).
      destruct (Z.of_nat n - Z.of_nat (lastColumn s) <? 1)%Z;
        [discriminate Hk |].
      destruct ((_ <? 1) || _); [discriminate Hk |].
      cbv beta iota in Hk.
      replace (Z.to_nat (Z.of_nat n - Z.of_nat (lastColumn s)))
        with (n - lastColumn s) in Hk by lia.
      exact Hk.
    - exact Hk. }
  apply Hensure in Htry. clear Hensure.
  unfold g_setValues, g_appendRow in Htry.
  rewrite (onTab_again i _ w s _ Hs) in Htry.
  match type of Htry with
  | context [if ?c then throw _ else _] => destruct c eqn:Hrange
  end; unfold throw in Htry; cbv beta iota in Htry; [discriminate Htry |].
  match type of Htry with
  | context [if ?c then inl _ else _] => destruct c
  end; cbv beta iota in Htry; [discriminate Htry |].
  unfold ok in Htry. cbv beta iota in Htry.
  rewrite (onTab_again i _ w s _ Hs) in Htry.
  unfold ok in Htry. cbv beta iota in Htry.
  unfold g_sendEmail in Htry. cbn [mailQuota withTab] in Htry.
  destruct (mailQuota w) as [|q]; [discriminate Htry |].
  cbn [clock fileId tabs outbox] in Htry. unfold ok in Htry.
  injection Htry as _ <-.
  exists (headers_of fieldOrder), row, i, s.
  cbn [rbind fst snd]. rewrite Horder. cbn [rbind fst snd]. rewrite Hrow.
  repeat split; [exact Hs |].
  apply orb_false_iff in Hrange as [_ Hrange]. apply Nat.ltb_ge in Hrange.
  fold n. destruct (lastColumn s <? n); cbn [maxColumns insertColumns] in Hrange; lia.
Qed.

Lemma pushValues_length (data : value) (fieldOrder : list string) :
  forall row0 row,
    pushValues data fieldOrder row0 = ok row ->
    List.length row = List.length row0 + List.length fieldOrder.
Proof.
  induction fieldOrder as [|key rest IH]; intros row0 row H; cbn [pushValues] in H.
  - injection H as <-. cbn [List.length]. lia.
  - destruct (Get data key) as [err|v]; [discriminate H |].
    cbn [rbind] in H. apply IH in H. rewrite H, length_app. cbn [List.length]. lia.
Qed.

(** The row has one cell per header label, and the header starts with
    Timestamp. *)
Lemma record_shape (timestamp : string) (e : Event) (headers row : list string) :
  record_of JSON_parse timestamp e = ok (headers, row) ->
  List.length row = List.length headers
  /\ exists fieldOrder, headers = "Timestamp" :: fieldOrder.
Proof.
  unfold record_of, row_of. intros H.
  destruct (data_of JSON_parse e) as [err|data]; [discriminate H |].
  cbn [rbind] in H.
  destruct (fieldOrder_of data) as [err|[fieldOrder data']]; [discriminate H |].
  cbn [rbind fst snd] in H.
  destruct (pushValues data' fieldOrder [timestamp]) as [err|r] eqn:Hpush;
    [discriminate H |].
  cbn [rbind] in H. injection H as <- <-.
  apply pushValues_length in Hpush. split; [exact Hpush | now exists fieldOrder].
Qed.


End Persist.



(** ** The submit handler *)

Section Submit.

Import Client.

Lemma due_now (clk latency delay extra dt : N) :
  (delay <= dt)%N ->
  (clk + latency + delay <=? clk + latency + extra + dt)%N = true.
Proof. intros H. apply N.leb_le. lia. Qed.

Lemma due_now_0 (clk latency delay dt : N) :
  (delay <= dt)%N ->
  (clk + latency + delay <=? clk + latency + dt)%N = true.
Proof. intros H. apply N.leb_le. lia. Qed.


(** C10 (as amended).  On a page that has the form and its button but no
    [#formSuccess] element, a submission answered with an HTTP success ends on
    the failure path: the form has been reset (the reset comes before the
    indicator is touched), the TypeError is logged, the button shows Error and
    is disabled, the alert is shown, the restoration is scheduled 3000 ms
    after the response, and once 3000 ms have passed after the handler has
    returned the button is enabled and carries the label it had before. *)
Theorem missing_indicator_takes_failure_path (latency alertOpenFor : N)
  (p : Page) (b : Button) :
  button p = Some b ->
  formSuccess p = None ->
  timers p = [] ->
  let p1 := snd (onSubmit latency (Fulfilled true) alertOpenFor p) in
  fst (onSubmit latency (Fulfilled true) alertOpenFor p) = ok tt
  /\ fields p1 = defaults p
  /\ console p1
     = (console p ++
        [("Error:", TypeError "Cannot read properties of null (reading 'classList')")])%list
  /\ button p1 = Some {| innerText := "Error"; disabled := true |}
  /\ alerts p1 = (alerts p ++ [apology])%list
  /\ timers p1 = [{| due := (clock p + latency + 3000)%N;
                     callback := RestoreAfterError (innerText b) |}]
  /\ forall dt, (3000 <= dt)%N ->
       button (advance dt p1)
       = Some {| innerText := innerText b; disabled := false |}.
Proof.
  destruct p as [btn flds dflts fs cons alrts tmrs clk].
  cbn [button timers formSuccess fields defaults console alerts clock].
  intros -> -> ->. cbv zeta. repeat split.
  intros dt Hdt. cbv -[N.add N.leb].
  rewrite (due_now clk latency 3000 alertOpenFor dt Hdt). reflexivity.
Qed.

End Submit.


Lemma missing_indicator_takes_failure_path_witness :
  Client.formSuccess noIndicator = None
  /\ Client.timers noIndicator = []
  /\ Client.fields (snd (Client.onSubmit 250 (Client.Fulfilled true) 7000 noIndicator))
     = Client.defaults noIndicator.
Proof.
  split; [reflexivity | split; [reflexivity |]].
  apply (missing_indicator_takes_failure_path 250 7000 noIndicator
           {| Client.innerText := "Send"; Client.disabled := false |});
    reflexivity.
Defined.

(** C10, as the claim states it, fails: the form is reset.  The field that
    held Ann is empty after the handler, although the failure path was
    taken. *)
Lemma form_is_reset_before_the_failure :
  Client.fields noIndicator = [("name", "Ann")]
  /\ Client.fields (snd (Client.onSubmit 250 (Client.Fulfilled true) 7000 noIndicator))
     = [("name", "")]
  /\ Client.button (snd (Client.onSubmit 250 (Client.Fulfilled true) 7000 noIndicator))
     = Some {| Client.innerText := "Error"; Client.disabled := true |}
  /\ Client.alerts (snd (Client.onSubmit 250 (Client.Fulfilled true) 7000 noIndicator))
     = [Client.apology].
Proof. repeat split. Qed.

(** * Further properties of the receiver *)

Lemma header_lists_the_labels_witness :
  (od <- fieldOrder_of
           (VObj [("Name", VStr "n");
                  ("_field_order", VStr (join "|||" ["Name"; "What is your goal?"]))]) ;;
   ok (headers_of (fst od)))%result
  = ok ["Timestamp"; "Name"; "What is your goal?"].
Proof.
  apply (header_lists_the_labels
           [("Name", VStr "n");
            ("_field_order", VStr (join "|||" ["Name"; "What is your goal?"]))]
           "Name" ["What is your goal?"]).
  - repeat constructor.
  - reflexivity.
Defined.










Section Untouched.

Variable JSON_parse : string -> result value.
Variable P : Platform.

(** X5.  When the request cannot be turned into data and a field order
    (the body does not decode, or the JSON body is null), [doPost] answers with
    the error object of that exception and calls no platform service: the
    outside world is exactly as it was. *)
Theorem unparsed_request_changes_nothing (e : Event) (w : World P) (err : exn) :
  (data <- data_of JSON_parse e ;; fieldOrder_of data)%result = inl err ->
  doPost JSON_parse P e w = (ok (errorOutput err), w).
Proof.
  intros H. unfold doPost, try_catch, doPost_try, bind, lift, ret.
  destruct (data_of JSON_parse e) as [err0|data]; cbn [rbind] in H.
  - injection H as ->. reflexivity.
  - rewrite H. reflexivity.
Qed.

End Untouched.

Lemma unparsed_request_changes_nothing_witness :
  doPost parseThree Grid.platform
    {| postData := Some {| type := "application/json"; contents := "null" |};
       parameter := None |} fourColumns
  = (ok (errorOutput
           (TypeError "Cannot read properties of null (reading '_field_order')")),
     fourColumns).
Proof.
  apply (unparsed_request_changes_nothing parseThree Grid.platform).
  reflexivity.
Defined.

(** ** Decoding the pairs *)

Lemma split_from_nonempty (sep : string) (s : string) :
  forall skip cur, split_from sep skip cur s <> [].
Proof.
  induction s as [|a r IH]; intros skip cur; cbn [split_from]; [discriminate |].
  destruct skip; [| apply IH].
  destruct (prefix sep (String a r)); [discriminate | apply IH].
Qed.

Lemma prefix_char (c a : ascii) (r : string) :
  prefix (String c "") (String a r) = Ascii.eqb c a.
Proof.
  cbn [prefix]. destruct (ascii_dec c a) as [->|Hne].
  - rewrite Ascii.eqb_refl. now destruct r.
  - symmetry. now apply Ascii.eqb_neq.
Qed.

Lemma join_cons (sep x : string) (l : list string) :
  l <> [] -> join sep (x :: l) = x ++ sep ++ join sep l.
Proof. destruct l; [congruence | reflexivity]. Qed.

(** Joining with a one-character separator undoes splitting on it. *)
Lemma join_split_char (c : ascii) (s : string) :
  forall cur, join (String c "") (split_from (String c "") 0 cur s) = cur ++ s.
Proof.
  induction s as [|a r IH]; intros cur; cbn [split_from].
  - cbn [join]. now rewrite append_empty_r.
  - rewrite prefix_char. cbn [String.length Nat.sub].
    destruct (Ascii.eqb_spec c a) as [<-|Hne].
    + rewrite join_cons by apply split_from_nonempty. now rewrite IH.
    + rewrite IH, append_assoc. reflexivity.
Qed.

(** A string without the separator character is one piece, and the first
    piece of a longer string ends at the first separator. *)
Lemma split_char_first (c : ascii) (k : string) :
  (forall a, In a (list_ascii_of_string k) -> a <> c) ->
  forall cur rest,
    split_from (String c "") 0 cur k = [cur ++ k]
    /\ split_from (String c "") 0 cur (k ++ String c rest)
       = (cur ++ k) :: split_from (String c "") 0 "" rest.
Proof.
  induction k as [|a r IH]; intros Hk cur rest.
  - rewrite append_empty_r. split; [reflexivity |].
    change ("" ++ String c rest) with (String c rest). cbn [split_from].
    now rewrite prefix_char, Ascii.eqb_refl.
  - assert (Ha : Ascii.eqb c a = false).
    { apply Ascii.eqb_neq. intros ->. apply (Hk a); [now left | reflexivity]. }
    assert (Hr : forall x, In x (list_ascii_of_string r) -> x <> c)
      by (intros x Hx; apply Hk; now right).
    change (String a r ++ String c rest) with (String a (r ++ String c rest)).
    cbn [split_from]. rewrite !prefix_char, Ha.
    destruct (IH Hr (cur ++ String a "") rest) as [H1 H2].
    rewrite H1, H2, append_assoc. split; reflexivity.
Qed.

(** X6.  A pair is cut at its first [=] only: for a key without [=], the
    value of [key=value] is everything after that [=], further [=] signs
    included, and a piece of the body without any [=] is a key with the empty
    value.  Both sides are decoded after [+] is turned into a space. *)
Theorem pair_is_cut_at_first_equals (key val : string) :
  (forall a, In a (list_ascii_of_string key) -> a <> "="%char) ->
  decodePair (key ++ "=" ++ val)
  = (k <- URI.decodeURIComponent (replacePlus key) ;;
     v <- URI.decodeURIComponent (replacePlus val) ;;
     ok (k, v))%result
  /\ decodePair key
     = (k <- URI.decodeURIComponent (replacePlus key) ;; ok (k, ""))%result.
Proof.
  intros Hk. unfold decodePair, split.
  destruct (split_char_first "=" key Hk "" val) as [H1 H2].
  change (key ++ "=" ++ val) with (key ++ String "=" val).
  rewrite H1, H2. cbn [hd tl append join].
  rewrite (join_split_char "=" val ""). split; [reflexivity |].
  destruct (URI.decodeURIComponent (replacePlus key)); reflexivity.
Qed.

Lemma pair_is_cut_at_first_equals_witness :
  decodePair ("q" ++ "=" ++ "a=b+c%3D")
  = (k <- URI.decodeURIComponent (replacePlus "q") ;;
     v <- URI.decodeURIComponent (replacePlus "a=b+c%3D") ;;
     ok (k, v))%result
  /\ decodePair "q"
     = (k <- URI.decodeURIComponent (replacePlus "q") ;; ok (k, ""))%result.
Proof.
  apply (pair_is_cut_at_first_equals "q" "a=b+c%3D").
  intros a [<-|[]]. discriminate.
Defined.

Lemma tokens_plain (s : string) :
  (forall a, In a (list_ascii_of_string s) -> a <> "%"%char) ->
  exists ts, URI.tokens s = Some ts /\ URI.assemble ts = Some s.
Proof.
  induction s as [|a r IH]; intros Hs.
  - now exists [].
  - assert (Ha : Ascii.eqb a "%" = false)
      by (apply Ascii.eqb_neq, Hs; now left).
    destruct IH as (ts & Ht & Has); [intros x Hx; apply Hs; now right |].
    exists (URI.Lit a :: ts). cbn [URI.tokens URI.assemble].
    now rewrite Ha, Ht, Has.
Qed.

Lemma replacePlus_chars (s : string) (a : ascii) :
  In a (list_ascii_of_string (replacePlus s)) ->
  a = " "%char \/ In a (list_ascii_of_string s).
Proof.
  induction s as [|c r IH]; cbn [replacePlus list_ascii_of_string In]; [tauto |].
  intros [H|H].
  - destruct (Ascii.eqb c "+"); [left | right; left]; congruence.
  - destruct (IH H); tauto.
Qed.

(** X7.  A text without [%] is taken as it was typed, except that every [+]
    is a space: decoding it never throws and changes nothing else. *)
Theorem plain_text_is_kept (s : string) :
  (forall a, In a (list_ascii_of_string s) -> a <> "%"%char) ->
  URI.decodeURIComponent (replacePlus s) = ok (replacePlus s).
Proof.
  intros Hs. unfold URI.decodeURIComponent.
  destruct (tokens_plain (replacePlus s)) as (ts & -> & ->); [| reflexivity].
  intros a Ha. destruct (replacePlus_chars s a Ha) as [->|Hin];
    [discriminate | now apply Hs].
Qed.

Lemma plain_text_is_kept_witness :
  URI.decodeURIComponent (replacePlus "John+Doe") = ok "John Doe".
Proof.
  apply (plain_text_is_kept "John+Doe").
  intros a Ha. cbn in Ha.
  repeat (destruct Ha as [<-|Ha]; [discriminate |]). contradiction.
Defined.

Lemma tokens_lone_percent (n : nat) :
  forall s, String.length s <= n -> URI.tokens (s ++ "%") = None.
Proof.
  induction n as [|n IH]; intros s Hlen.
  - destruct s; [reflexivity | cbn in Hlen; lia].
  - destruct s as [|a r]; [reflexivity |].
    cbn [String.length] in Hlen.
    change (String a r ++ "%") with (String a (r ++ "%")).
    cbn [URI.tokens]. destruct (Ascii.eqb a "%").
    + destruct r as [|h [|l r']]; cbn [append].
      * reflexivity.
      * destruct (URI.hexDigit h); reflexivity.
      * rewrite (IH r') by (cbn [String.length] in Hlen; lia).
        destruct (URI.hexDigit h), (URI.hexDigit l); reflexivity.
    + now rewrite (IH r) by lia.
Qed.

Lemma decode_lone_percent (s : string) :
  URI.decodeURIComponent (s ++ "%") = throw (URIError "URI malformed").
Proof.
  unfold URI.decodeURIComponent.
  now rewrite (tokens_lone_percent (String.length s) s).
Qed.

Lemma replacePlus_append (s t : string) :
  replacePlus (s ++ t) = replacePlus s ++ replacePlus t.
Proof. induction s as [|a r IH]; cbn; [reflexivity | now rewrite IH]. Qed.

Lemma decode_only_throws_URIError (s : string) (err : exn) :
  URI.decodeURIComponent s = inl err -> err = URIError "URI malformed".
Proof.
  unfold URI.decodeURIComponent.
  destruct (URI.tokens s) as [ts|]; [destruct (URI.assemble ts) |];
    intros H; try discriminate H; now injection H as <-.
Qed.

Lemma decodePair_only_throws_URIError (piece : string) (err : exn) :
  decodePair piece = inl err -> err = URIError "URI malformed".
Proof.
  unfold decodePair.
  destruct (URI.decodeURIComponent (replacePlus (hd "" (split "=" piece))))
    as [e1|k] eqn:Hk; cbn [rbind].
  - intros H. injection H as <-. now apply decode_only_throws_URIError in Hk.
  - destruct (URI.decodeURIComponent (replacePlus (join "=" (tl (split "=" piece)))))
      as [e2|v] eqn:Hv; cbn [rbind]; intros H; [| discriminate H].
    injection H as <-. now apply decode_only_throws_URIError in Hv.
Qed.

(** The last piece of a text that ends in [%] ends in [%]. *)
Lemma split_last_percent (c : ascii) (s : string) :
  c <> "%"%char ->
  forall cur, exists init last,
    split_from (String c "") 0 cur (s ++ "%") = (init ++ [(last ++ "%")%string])%list.
Proof.
  intros Hc. induction s as [|a r IH]; intros cur.
  - exists [], cur. cbn [append split_from]. rewrite prefix_char.
    apply Ascii.eqb_neq in Hc. now rewrite Hc.
  - change (String a r ++ "%") with (String a (r ++ "%")).
    cbn [split_from]. rewrite prefix_char. cbn [String.length Nat.sub].
    destruct (Ascii.eqb c a).
    + destruct (IH "") as (init & last & ->). now exists (cur :: init), last.
    + destruct (IH (cur ++ String a "")) as (init & last & ->). now exists init, last.
Qed.

Lemma join_last_percent (sep : string) (init : list string) (last : string) :
  exists t, join sep (init ++ [(last ++ "%")%string])%list = t ++ "%".
Proof.
  induction init as [|x init IH].
  - now exists last.
  - destruct IH as [t Ht]. exists (x ++ sep ++ t).
    change ((x :: init) ++ [(last ++ "%")%string])%list
      with (x :: (init ++ [(last ++ "%")%string]))%list.
    rewrite join_cons by (destruct init; discriminate).
    now rewrite Ht, !append_assoc.
Qed.

Lemma decodePair_lone_percent (piece : string) :
  decodePair (piece ++ "%") = throw (URIError "URI malformed").
Proof.
  destruct (decodePair (piece ++ "%")) as [err|kv] eqn:H.
  - now rewrite (decodePair_only_throws_URIError _ _ H).
  - exfalso. unfold decodePair, split in H.
    destruct (split_last_percent "=" piece ltac:(discriminate) "")
      as (init & last & Hsplit).
    rewrite Hsplit in H. destruct init as [|x init].
    + cbn [app hd] in H. rewrite replacePlus_append, decode_lone_percent in H.
      discriminate H.
    + cbn [app hd tl] in H.
      destruct (URI.decodeURIComponent (replacePlus x)); [discriminate H |].
      cbn [rbind] in H.
      destruct (join_last_percent "=" init last) as [t Ht].
      rewrite Ht, replacePlus_append, decode_lone_percent in H. discriminate H.
Qed.

Lemma parsePairs_only_throws_URIError (pieces : list string) :
  forall obj err, parsePairs obj pieces = inl err -> err = URIError "URI malformed".
Proof.
  induction pieces as [|p rest IH]; intros obj err; cbn [parsePairs]; [discriminate |].
  destruct (String.eqb p ""); [apply IH |].
  destruct (decodePair p) as [e|kv] eqn:Hp; cbn [rbind].
  - intros H. injection H as <-. now apply decodePair_only_throws_URIError in Hp.
  - apply IH.
Qed.

Lemma parsePairs_bad_last (init : list string) (last : string) :
  forall obj,
    parsePairs obj (init ++ [(last ++ "%")%string])%list = throw (URIError "URI malformed").
Proof.
  induction init as [|p init IH]; intros obj.
  - cbn [app parsePairs].
    replace (String.eqb (last ++ "%") "") with false
      by (symmetry; apply String.eqb_neq; destruct last; discriminate).
    now rewrite decodePair_lone_percent.
  - cbn [app parsePairs]. destruct (String.eqb p ""); [apply IH |].
    destruct (decodePair p) as [e|kv] eqn:Hp; cbn [rbind]; [| apply IH].
    now rewrite (decodePair_only_throws_URIError _ _ Hp).
Qed.

(** X8.  A raw body that ends in a lone [%] is never accepted: whatever
    comes before, reading it as a query string throws the URIError "URI
    malformed". *)
Theorem body_ending_in_percent_is_rejected (qs : string) :
  parseQueryString (qs ++ "%") = throw (URIError "URI malformed").
Proof.
  unfold parseQueryString, split.
  destruct (split_last_percent "&" qs ltac:(discriminate) "") as (init & last & ->).
  now rewrite parsePairs_bad_last.
Qed.

(** ** More on what is written to the spreadsheet *)

Section Sending.

Import Grid.

Variable JSON_parse : string -> result value.

(** On a spreadsheet that opens, with a tab whose grid is at least as wide
    as its content, steps 1 to 5 go through, and the outcome is that of
    sending the mail. *)
Lemma grid_run (e : Event) (w : world) (headers row : list string)
  (i : nat) (s : sheet) :
  record_of JSON_parse (clock w) e = ok (headers, row) ->
  fileId w = SHEET_ID ->
  selected w = Some i ->
  nth_error (tabs w) i = Some s ->
  lastColumn s <= maxColumns s ->
  1 <= maxColumns s ->
  doPost_try JSON_parse platform e w
  = match g_sendEmail (notice headers row) (withTab w i (persisted headers row s)) with
    | (inl err, w') => (inl err, w')
    | (inr _, w') => (inr successOutput, w')
    end.
Proof.
  intros Hrec Hid Hsel Hs Hwide Hone.
  unfold record_of in Hrec.
  destruct (data_of JSON_parse e) as [err|data] eqn:Hdata; [discriminate Hrec |].
  cbn [rbind] in Hrec.
  destruct (fieldOrder_of data) as [err|[fieldOrder data']] eqn:Horder;
    [discriminate Hrec |].
  cbn [rbind fst snd] in Hrec.
  destruct (row_of (clock w) fieldOrder data') as [err|row'] eqn:Hrow;
    [discriminate Hrec |].
  cbn [rbind] in Hrec. injection Hrec as <- <-.
  unfold doPost_try, bind, lift, ret, ok, throw.
  cbn [toISOString openById getSheetByName getSheets getLastColumn
       insertColumnsAfter setValues appendRow sendEmail platform].
  rewrite Hdata. cbv beta iota. rewrite Horder. cbv beta iota. cbn [fst snd].
  unfold g_toISOString, ok. cbv beta iota. rewrite Hrow. cbv beta iota.
  unfold g_openById, g_getSheetByName, g_getSheets, ok, throw.
  rewrite <- Hid, String.eqb_refl. cbv beta iota.
  match goal with
  | |- (let (_, _) := ?X in _) = _ =>
      assert (Heq : X = (inr (selected w), w))
        by (unfold selected; destruct (findTab SHEET_NAME 0 (tabs w)); reflexivity);
      rewrite Heq; clear Heq
  end.
  rewrite Hsel. cbv beta iota.
  set (n := List.length (headers_of fieldOrder)).
  unfold g_getLastColumn, g_insertColumnsAfter, g_setValues, g_appendRow.
  rewrite (onTab_run i _ w s Hs). unfold ok, throw. cbv beta iota.
  assert (Hensure :
            forall (k : world -> result TextOutput * world),
              (let (r0, w'0) :=
                 (if lastColumn s <? n
                  then
                    fun w0 : world =>
                      let (r0, w'0) := onTab i (fun s0 => inr (lastColumn s0, s0)) w0 in
                      match r0 with
                      | inl e0 => (inl e0, w'0)
                      | inr a0 =>
                          let (r1, w'1) :=
                            onTab i (fun s0 => inr (lastColumn s0, s0)) w'0 in
                          match r1 with
                          | inl e0 => (inl e0, w'1)
                          | inr a1 =>
                              onTab i
                                (fun s0 =>
                                   if (Z.of_nat n - Z.of_nat a1 <? 1)%Z
                                   then inl (Error "The number of columns to insert must be at least 1.")
                                   else
                                     if ((if Nat.eqb a0 0 then 1 else a0) <? 1)
                                        || (maxColumns s0 <? (if Nat.eqb a0 0 then 1 else a0))
                                     then inl (Error "Those columns are out of bounds.")
                                     else
                                       inr (tt, insertColumns (if Nat.eqb a0 0 then 1 else a0)
                                                  (Z.to_nat (Z.of_nat n - Z.of_nat a1)) s0))
                                w'1
                          end
                      end
                  else fun w0 : world => (inr tt, w0)) (withTab w i s) in
               match r0 with
               | inl e0 => (inl e0, w'0)
               | inr _ => k w'0
               end)
              = k (withTab w i
                     (if lastColumn s <? n
                      then insertColumns (if Nat.eqb (lastColumn s) 0 then 1 else lastColumn s)
                                         (n - lastColumn s) s
                      else s))).
  { intros k. destruct (Nat.ltb_spec (lastColumn s) n) as [Hlt|Hge]; [| reflexivity].
    repeat (rewrite (onTab_again i _ w s s Hs); unfold ok, throw; cbv beta iota).
    replace (Z.of_nat n - Z.of_nat (lastColumn s) <? 1)%Z with false
      by (symmetry; apply Z.ltb_ge; lia).
    replace (((if Nat.eqb (lastColumn s) 0 then 1 else lastColumn s) <? 1)
             || (maxColumns s <? (if Nat.eqb (lastColumn s) 0 then 1 else lastColumn s)))
      with false.
    - cbv beta iota.
      replace (Z.to_nat (Z.of_nat n - Z.of_nat (lastColumn s)))
        with (n - lastColumn s) by lia.
      reflexivity.
    - symmetry. apply orb_false_iff.
      destruct (Nat.eqb (lastColumn s) 0) eqn:H0; split;
        apply Nat.ltb_ge; try lia.
      apply Nat.eqb_neq in H0. lia. }
  rewrite Hensure. clear Hensure.
  set (s1 := if lastColumn s <? n then _ else s).
  assert (Hn : 1 <= n) by (subst n; cbn [headers_of List.length]; lia).
  assert (Hfit : n <= maxColumns s1).
  { subst s1. destruct (Nat.ltb_spec (lastColumn s) n);
      cbn [maxColumns insertColumns]; lia. }
  rewrite (onTab_again i _ w s s1 Hs).
  change (1 <? 1) with false. cbn [orb Nat.sub Nat.add List.length Nat.eqb negb forallb].
  replace ((n <? 1) || (maxColumns s1 <? n)) with false
    by (symmetry; apply orb_false_iff; split; apply Nat.ltb_ge; lia).
  fold n. rewrite Nat.eqb_refl. cbn [andb negb]. unfold ok. cbv beta iota.
  rewrite (onTab_again i _ w s _ Hs). cbv beta iota.
  reflexivity.
Qed.

(** X9.  On a spreadsheet that opens under the configured id, with at
    least one mail left in the quota and a selected tab whose grid is at least
    as wide as its content, every request whose body gives a record is
    answered with success: the tab is written as steps 4 and 5 say, one mail
    goes out, and nothing else changes. *)
Theorem doPost_succeeds_on_sound_sheet (e : Event) (w : world)
  (headers row : list string) (i q : nat) (s : sheet) :
  record_of JSON_parse (clock w) e = ok (headers, row) ->
  fileId w = SHEET_ID ->
  selected w = Some i ->
  nth_error (tabs w) i = Some s ->
  lastColumn s <= maxColumns s ->
  1 <= maxColumns s ->
  mailQuota w = S q ->
  doPost JSON_parse platform e w
  = (ok successOutput,
     {| clock := clock w;
        fileId := fileId w;
        tabs := replaceNth i (persisted headers row s) (tabs w);
        outbox := (outbox w ++ [notice headers row])%list;
        mailQuota := q |}).
Proof.
  intros Hrec Hid Hsel Hs Hwide Hone Hq.
  unfold doPost, try_catch.
  rewrite (grid_run e w headers row i s Hrec Hid Hsel Hs Hwide Hone).
  unfold g_sendEmail. cbn [mailQuota withTab]. rewrite Hq. reflexivity.
Qed.

(** X10.  The mail is sent last and nothing is undone when it fails: with
    the mail quota used up, the request is answered with an error although the
    header and the row have been written to the tab; no mail is recorded. *)
Theorem notification_failure_keeps_the_row (e : Event) (w : world)
  (headers row : list string) (i : nat) (s : sheet) :
  record_of JSON_parse (clock w) e = ok (headers, row) ->
  fileId w = SHEET_ID ->
  selected w = Some i ->
  nth_error (tabs w) i = Some s ->
  lastColumn s <= maxColumns s ->
  1 <= maxColumns s ->
  mailQuota w = 0 ->
  exists err,
    doPost JSON_parse platform e w
    = (ok (errorOutput err),
       {| clock := clock w;
          fileId := fileId w;
          tabs := replaceNth i (persisted headers row s) (tabs w);
          outbox := outbox w;
          mailQuota := 0 |}).
Proof.
  intros Hrec Hid Hsel Hs Hwide Hone Hq.
  unfold doPost, try_catch.
  rewrite (grid_run e w headers row i s Hrec Hid Hsel Hs Hwide Hone).
  unfold g_sendEmail. cbn [mailQuota withTab]. rewrite Hq.
  eexists. unfold ret, withTab. rewrite Hq. reflexivity.
Qed.

End Sending.

Lemma doPost_succeeds_on_sound_sheet_witness :
  doPost parseThree Grid.platform johnDoe fourColumns
  = (ok successOutput,
     {| Grid.clock := Grid.clock fourColumns;
        Grid.fileId := Grid.fileId fourColumns;
        Grid.tabs :=
          Grid.replaceNth 1
            (Grid.persisted ["Timestamp"; "Name"; "Email"]
               ["2024-05-01T10:00:00.000Z"; "John Doe"; "john@example.com"]
               {| Grid.tab := "Sheet1"; Grid.maxColumns := 26;
                  Grid.cells := [["Timestamp"; "A"; "B"; "C"]; ["t"; "1"; "2"; "3"]] |})
            (Grid.tabs fourColumns);
        Grid.outbox :=
          (Grid.outbox fourColumns ++
           [Grid.notice ["Timestamp"; "Name"; "Email"]
              ["2024-05-01T10:00:00.000Z"; "John Doe"; "john@example.com"]])%list;
        Grid.mailQuota := 4 |}).
Proof.
  apply (doPost_succeeds_on_sound_sheet parseThree johnDoe fourColumns);
    try reflexivity; vm_compute; lia.
Defined.

Lemma notification_failure_keeps_the_row_witness :
  exists err,
    doPost parseThree Grid.platform johnDoe
      {| Grid.clock := "t"; Grid.fileId := SHEET_ID;
         Grid.tabs := [ {| Grid.tab := "Sheet1"; Grid.maxColumns := 26;
                           Grid.cells := [] |} ];
         Grid.outbox := []; Grid.mailQuota := 0 |}
    = (ok (errorOutput err),
       {| Grid.clock := "t"; Grid.fileId := SHEET_ID;
          Grid.tabs :=
            Grid.replaceNth 0
              (Grid.persisted ["Timestamp"; "Name"; "Email"]
                 ["t"; "John Doe"; "john@example.com"]
                 {| Grid.tab := "Sheet1"; Grid.maxColumns := 26; Grid.cells := [] |})
              [ {| Grid.tab := "Sheet1"; Grid.maxColumns := 26; Grid.cells := [] |} ];
          Grid.outbox := []; Grid.mailQuota := 0 |}).
Proof.
  apply (notification_failure_keeps_the_row parseThree johnDoe
           {| Grid.clock := "t"; Grid.fileId := SHEET_ID;
              Grid.tabs := [ {| Grid.tab := "Sheet1"; Grid.maxColumns := 26;
                                Grid.cells := [] |} ];
              Grid.outbox := []; Grid.mailQuota := 0 |});
    try reflexivity; vm_compute; lia.
Defined.

(** ** The spreadsheet after a request *)

Section Aftermath.

Import Grid.

Variable JSON_parse : string -> result value.

Lemma lastSuch_hit {A} (p : A -> bool) (l : list A) :
  forall j, lastSuch p l = S j -> exists x, nth_error l j = Some x /\ p x = true.
Proof.
  induction l as [|x0 l IH]; intros j H; cbn [lastSuch] in H; [discriminate H |].
  destruct (lastSuch p l) as [|k] eqn:Hl.
  - destruct (p x0) eqn:Hp; [| discriminate H].
    injection H as <-. now exists x0.
  - injection H as <-. destruct (IH k eq_refl) as (x & Hx & Hpx). now exists x.
Qed.

Lemma lastSuch_unique {A} (p : A -> bool) (l : list A) (k : nat) (x : A) :
  nth_error l k = Some x -> p x = true ->
  (forall j y, k < j -> nth_error l j = Some y -> p y = false) ->
  lastSuch p l = S k.
Proof.
  intros Hx Hp Hbeyond.
  destruct (lastSuch p l) as [|m] eqn:Hl.
  - pose proof (lastSuch_beyond p l k x) as H. rewrite Hl in H.
    rewrite H in Hp by (auto; lia). discriminate Hp.
  - destruct (lastSuch_hit p l m Hl) as (y & Hy & Hpy).
    destruct (Nat.lt_trichotomy k m) as [Hlt|[->|Hgt]]; [| reflexivity |].
    + rewrite (Hbeyond m y Hlt Hy) in Hpy. discriminate Hpy.
    + pose proof (lastSuch_beyond p l k x) as H. rewrite Hl in H.
      rewrite H in Hp by (auto; lia). discriminate Hp.
Qed.

(** The last column with content lies before a column from which every
    cell is blank. *)
Lemma lastColumn_le (s : sheet) (k : nat) :
  (forall r c, k <= c -> cell s r c = "") -> lastColumn s <= k.
Proof.
  intros Hblank. unfold lastColumn. apply list_max_le, Forall_forall.
  intros m Hm. apply in_map_iff in Hm as (row & <- & Hin).
  destruct (In_nth _ _ [] Hin) as (r & _ & Hr).
  destruct (lastSuch (fun x => negb (blank x)) row) as [|j] eqn:Hl; [lia |].
  destruct (lastSuch_hit _ row j Hl) as (x & Hx & Hpx).
  destruct (Nat.le_gt_cases k j) as [Hkj|]; [| lia].
  exfalso. specialize (Hblank r j Hkj). unfold cell in Hblank.
  rewrite Hr, (nth_error_nth _ _ _ Hx) in Hblank. subst x. discriminate Hpx.
Qed.

(** The last row with content is the one below which every cell is blank. *)
Lemma lastRow_unique (s : sheet) (k c0 : nat) :
  cell s k c0 <> "" ->
  (forall r c, k < r -> cell s r c = "") ->
  lastRow s = S k.
Proof.
  intros Hcell Hblank. unfold lastRow, cell in *.
  destruct (nth_error (cells s) k) as [row|] eqn:Hrow.
  - apply (lastSuch_unique hasContent (cells s) k row Hrow).
    + rewrite (nth_error_nth _ _ _ Hrow) in Hcell. unfold hasContent.
      apply existsb_exists. exists (nth c0 row "").
      split.
      * destruct (nth_in_or_default c0 row "") as [Hin|Hdef]; [exact Hin | congruence].
      * unfold blank. apply negb_true_iff, String.eqb_neq. exact Hcell.
    + intros j y Hkj Hy. unfold hasContent.
      destruct (existsb (fun c => negb (blank c)) y) eqn:Hex; [| reflexivity].
      apply existsb_exists in Hex as (x & Hin & Hx).
      destruct (In_nth _ _ "" Hin) as (c & _ & Hc).
      specialize (Hblank j c Hkj). rewrite (nth_error_nth _ _ _ Hy), Hc in Hblank.
      subst x. discriminate Hx.
  - exfalso. apply Hcell.
    rewrite (@nth_overflow _ (cells s) k []) by now apply nth_error_None.
    now destruct c0.
Qed.

Lemma findTab_replaceNth (name : string) (s' : sheet) :
  forall l i k s,
    nth_error l i = Some s -> tab s' = tab s ->
    findTab name k (replaceNth i s' l) = findTab name k l.
Proof.
  induction l as [|x l IH]; intros [|i] k s Hs Htab; cbn [nth_error] in Hs;
    try discriminate Hs; cbn [replaceNth findTab].
  - injection Hs as ->. now rewrite Htab.
  - now rewrite (IH i (S k) s Hs Htab).
Qed.

Lemma length_replaceNth {A} (x : A) (l : list A) :
  forall i, List.length (replaceNth i x l) = List.length l.
Proof.
  induction l as [|y l IH]; intros [|i]; cbn [replaceNth List.length];
    try reflexivity.
  now rewrite IH.
Qed.

Lemma pushValues_prefix (data : value) (fieldOrder : list string) :
  forall row0 row,
    pushValues data fieldOrder row0 = ok row ->
    exists rest, row = (row0 ++ rest)%list.
Proof.
  induction fieldOrder as [|key rest IH]; intros row0 row H; cbn [pushValues] in H.
  - injection H as <-. exists []. now rewrite app_nil_r.
  - destruct (Get data key) as [err|v]; [discriminate H |].
    cbn [rbind] in H. destruct (IH _ _ H) as [tl_ ->].
    exists (normalizeValue v :: tl_). now rewrite <- app_assoc.
Qed.

(** The row starts with the timestamp. *)
Lemma record_starts_with_timestamp (timestamp : string) (e : Event)
  (headers row : list string) :
  record_of JSON_parse timestamp e = ok (headers, row) ->
  exists rest, row = timestamp :: rest.
Proof.
  unfold record_of, row_of. intros H.
  destruct (data_of JSON_parse e) as [err|data]; [discriminate H |].
  cbn [rbind] in H.
  destruct (fieldOrder_of data) as [err|[fieldOrder data']]; [discriminate H |].
  cbn [rbind fst snd] in H.
  destruct (pushValues data' fieldOrder [timestamp]) as [err|r] eqn:Hpush;
    [discriminate H |].
  cbn [rbind] in H. injection H as _ <-.
  exact (pushValues_prefix _ _ _ _ Hpush).
Qed.

(** X11.  A successful request leaves the spreadsheet fit for the next one:
    the same tab is selected, it is found under the same number, and if its
    grid was at least as wide as its content before, it is so afterwards. *)
Theorem sheet_stays_sound (e : Event) (w w' : world) (i : nat) (s : sheet) :
  doPost JSON_parse platform e w = (ok successOutput, w') ->
  selected w = Some i ->
  nth_error (tabs w) i = Some s ->
  lastColumn s <= maxColumns s ->
  exists s',
    fileId w' = fileId w
    /\ selected w' = Some i
    /\ nth_error (tabs w') i = Some s'
    /\ lastColumn s' <= maxColumns s'
    /\ 1 <= maxColumns s'.
Proof.
  intros H Hsel Hs Hwide. apply success_on_grid in H.
  destruct H as (headers & row & i0 & s0 & Hrec & Hsel0 & Hs0 & Hfit & ->).
  rewrite Hsel in Hsel0. injection Hsel0 as <-.
  rewrite Hs in Hs0. injection Hs0 as <-.
  destruct (record_shape _ _ _ _ _ Hrec) as [Hlen [fieldOrder Hhead]].
  exists (persisted headers row s). cbn [fileId tabs].
  assert (Hmax : maxColumns (persisted headers row s)
                 = if lastColumn s <? List.length headers
                   then maxColumns s + (List.length headers - lastColumn s)
                   else maxColumns s)
    by (rewrite persisted_maxColumns, Hlen; lia).
  assert (Hn : 1 <= List.length headers) by (rewrite Hhead; cbn; lia).
  repeat split.
  - unfold selected in *. cbn [tabs].
    rewrite (findTab_replaceNth SHEET_NAME _ _ i 0 s Hs (persisted_tab headers row s)).
    now rewrite length_replaceNth.
  - now apply (nth_error_replaceNth i _ s).
  - rewrite Hmax.
    apply Nat.le_trans with (Nat.max (lastColumn s) (List.length headers));
      [| destruct (Nat.ltb_spec (lastColumn s) (List.length headers)); lia].
    apply lastColumn_le. intros r c Hc. subst headers.
    rewrite persisted_cell by reflexivity.
    destruct (Nat.eqb r 0) eqn:Hr0.
    + replace (c <? List.length ("Timestamp" :: fieldOrder)) with false
        by (symmetry; apply Nat.ltb_ge; lia).
      apply blank_beyond_lastColumn. lia.
    + destruct (Nat.eqb r (Nat.max 1 (lastRow s))).
      * apply nth_overflow. lia.
      * apply blank_beyond_lastColumn. lia.
  - rewrite Hmax. destruct (Nat.ltb_spec (lastColumn s) (List.length headers)); lia.
Qed.

(** X12.  Records accumulate: when the timestamp is not empty, the last row
    with content after a successful request is the row just written, one below
    where the content ended (or row 2 on a sheet that was empty), so the next
    request writes below it and never over it. *)
Theorem rows_accumulate (e : Event) (w w' : world) (i : nat) (s : sheet) :
  doPost JSON_parse platform e w = (ok successOutput, w') ->
  clock w <> "" ->
  selected w = Some i ->
  nth_error (tabs w) i = Some s ->
  exists s',
    nth_error (tabs w') i = Some s'
    /\ lastRow s' = S (Nat.max 1 (lastRow s)).
Proof.
  intros H Hclock Hsel Hs. apply success_on_grid in H.
  destruct H as (headers & row & i0 & s0 & Hrec & Hsel0 & Hs0 & Hfit & ->).
  rewrite Hsel in Hsel0. injection Hsel0 as <-.
  rewrite Hs in Hs0. injection Hs0 as <-.
  destruct (record_shape _ _ _ _ _ Hrec) as [Hlen [fieldOrder Hhead]].
  destruct (record_starts_with_timestamp _ _ _ _ Hrec) as [rest Hrow].
  exists (persisted headers row s). cbn [tabs].
  split; [now apply (nth_error_replaceNth i _ s) |].
  subst headers.
  apply (lastRow_unique _ (Nat.max 1 (lastRow s)) 0).
  - rewrite persisted_cell by reflexivity.
    replace (Nat.eqb (Nat.max 1 (lastRow s)) 0) with false
      by (symmetry; apply Nat.eqb_neq; lia).
    rewrite Nat.eqb_refl, Hrow. exact Hclock.
  - intros r c Hr. rewrite persisted_cell by reflexivity.
    replace (Nat.eqb r 0) with false by (symmetry; apply Nat.eqb_neq; lia).
    replace (Nat.eqb r (Nat.max 1 (lastRow s))) with false
      by (symmetry; apply Nat.eqb_neq; lia).
    apply blank_beyond_lastRow. lia.
Qed.

End Aftermath.

Lemma sheet_stays_sound_witness :
  exists s',
    Grid.fileId (snd (doPost parseThree Grid.platform johnDoe fourColumns))
    = Grid.fileId fourColumns
    /\ Grid.selected (snd (doPost parseThree Grid.platform johnDoe fourColumns)) = Some 1
    /\ nth_error (Grid.tabs (snd (doPost parseThree Grid.platform johnDoe fourColumns))) 1
       = Some s'
    /\ Grid.lastColumn s' <= Grid.maxColumns s'
    /\ 1 <= Grid.maxColumns s'.
Proof.
  apply (sheet_stays_sound parseThree johnDoe fourColumns _ 1
           {| Grid.tab := "Sheet1"; Grid.maxColumns := 26;
              Grid.cells := [["Timestamp"; "A"; "B"; "C"]; ["t"; "1"; "2"; "3"]] |});
    try reflexivity; vm_compute; lia.
Defined.

Lemma rows_accumulate_witness :
  exists s',
    nth_error (Grid.tabs (snd (doPost parseThree Grid.platform johnDoe fourColumns))) 1
    = Some s'
    /\ Grid.lastRow s' = 3.
Proof.
  apply (rows_accumulate parseThree johnDoe fourColumns _ 1
           {| Grid.tab := "Sheet1"; Grid.maxColumns := 26;
              Grid.cells := [["Timestamp"; "A"; "B"; "C"]; ["t"; "1"; "2"; "3"]] |});
    try reflexivity; discriminate.
Defined.

Section Steady.

Import Grid.

Variable JSON_parse : string -> result value.

(** X13.  A request whose header is the one row 1 already shows changes
    nothing but the new row: every cell outside the row it writes is as
    before, and no column is added when the content already reaches the width
    of the header. *)
Theorem same_header_only_appends (e : Event) (w w' : world)
  (headers row : list string) (i : nat) (s : sheet) :
  doPost JSON_parse platform e w = (ok successOutput, w') ->
  record_of JSON_parse (clock w) e = ok (headers, row) ->
  selected w = Some i ->
  nth_error (tabs w) i = Some s ->
  (forall c, c < List.length headers -> cell s 0 c = nth c headers "") ->
  exists s',
    nth_error (tabs w') i = Some s'
    /\ (forall r c, r <> Nat.max 1 (lastRow s) -> cell s' r c = cell s r c)
    /\ (forall c, cell s' (Nat.max 1 (lastRow s)) c = nth c row "")
    /\ (List.length headers <= lastColumn s -> maxColumns s' = maxColumns s).
Proof.
  intros H Hrec Hsel Hs Hsame. apply success_on_grid in H.
  destruct H as (headers0 & row0 & i0 & s0 & Hrec0 & Hsel0 & Hs0 & Hfit & ->).
  rewrite Hrec in Hrec0. injection Hrec0 as <- <-.
  rewrite Hsel in Hsel0. injection Hsel0 as <-.
  rewrite Hs in Hs0. injection Hs0 as <-.
  destruct (record_shape _ _ _ _ _ Hrec) as [Hlen [fieldOrder Hhead]].
  exists (persisted headers row s). cbn [tabs].
  split; [now apply (nth_error_replaceNth i _ s) |].
  subst headers. repeat split.
  - intros r c Hr. rewrite persisted_cell by reflexivity.
    destruct (Nat.eqb_spec r 0) as [->|Hr0].
    + destruct (Nat.ltb_spec c (List.length ("Timestamp" :: fieldOrder)));
        [symmetry; now apply Hsame | reflexivity].
    + apply Nat.eqb_neq in Hr. now rewrite Hr.
  - intros c. rewrite persisted_cell by reflexivity.
    replace (Nat.eqb (Nat.max 1 (lastRow s)) 0) with false
      by (symmetry; apply Nat.eqb_neq; lia).
    now rewrite Nat.eqb_refl.
  - intros Hreach. rewrite persisted_maxColumns, Hlen.
    replace (lastColumn s <? List.length ("Timestamp" :: fieldOrder)) with false
      by (symmetry; apply Nat.ltb_ge; exact Hreach).
    destruct (Nat.ltb_spec (lastColumn s) (List.length ("Timestamp" :: fieldOrder)));
      lia.
Qed.

Lemma lines_pair_up (hs : list string) :
  forall pre rest,
    List.length rest = List.length hs ->
    map (fun hi => fst hi ++ ":" ++ newline ++ nth (snd hi) (pre ++ rest)%list "")
        (combine hs (seq (List.length pre) (List.length hs)))
    = map (fun hv => fst hv ++ ":" ++ newline ++ snd hv) (combine hs rest).
Proof.
  induction hs as [|h hs IH]; intros pre rest Hlen; [reflexivity |].
  destruct rest as [|v rest]; [discriminate Hlen |].
  cbn [List.length seq combine map fst snd]. rewrite nth_middle. f_equal.
  specialize (IH (pre ++ [v])%list rest).
  rewrite length_app, Nat.add_1_r, <- app_assoc in IH.
  apply IH. now injection Hlen.
Qed.

(** X14.  On success exactly one mail is recorded, addressed to [EMAIL_TO];
    its body has one paragraph per header label, in the order of the header,
    each the label, a colon, a line break and the cell of the row under that
    label; and the quota is counted down by one. *)
Theorem one_mail_lists_label_and_cell (e : Event) (w w' : world)
  (headers row : list string) :
  doPost JSON_parse platform e w = (ok successOutput, w') ->
  record_of JSON_parse (clock w) e = ok (headers, row) ->
  outbox w'
  = (outbox w ++
     [{| to := EMAIL_TO;
         subject := "New Ideal Avatar Submission";
         body := join (newline ++ newline)
                   (map (fun hv => (fst hv ++ ":" ++ newline ++ snd hv)%string)
                        (combine headers row)) |}])%list
  /\ mailQuota w' = pred (mailQuota w).
Proof.
  intros H Hrec. apply success_on_grid in H.
  destruct H as (headers0 & row0 & i0 & s0 & Hrec0 & Hsel0 & Hs0 & Hfit & ->).
  rewrite Hrec in Hrec0. injection Hrec0 as <- <-.
  destruct (record_shape _ _ _ _ _ Hrec) as [Hlen _].
  cbn [outbox mailQuota]. split; [| reflexivity].
  assert (Hl : lines_of headers row
               = map (fun hv => (fst hv ++ ":" ++ newline ++ snd hv)%string)
                     (combine headers row))
    by exact (lines_pair_up headers [] row Hlen).
  now rewrite Hl.
Qed.

End Steady.

Lemma same_header_only_appends_witness :
  exists s',
    nth_error
      (Grid.tabs
         (snd (doPost parseThree Grid.platform
                 (urlencoded "A=1&B=2&C=3&_field_order=A|||B|||C") fourColumns))) 1
    = Some s'
    /\ (forall r c, r <> 2 ->
          Grid.cell s' r c
          = Grid.cell {| Grid.tab := "Sheet1"; Grid.maxColumns := 26;
                         Grid.cells := [["Timestamp"; "A"; "B"; "C"];
                                        ["t"; "1"; "2"; "3"]] |} r c)
    /\ (forall c, Grid.cell s' 2 c
                  = nth c ["2024-05-01T10:00:00.000Z"; "1"; "2"; "3"] "")
    /\ (4 <= 4 -> Grid.maxColumns s' = 26).
Proof.
  apply (same_header_only_appends parseThree
           (urlencoded "A=1&B=2&C=3&_field_order=A|||B|||C") fourColumns _
           ["Timestamp"; "A"; "B"; "C"]
           ["2024-05-01T10:00:00.000Z"; "1"; "2"; "3"] 1
           {| Grid.tab := "Sheet1"; Grid.maxColumns := 26;
              Grid.cells := [["Timestamp"; "A"; "B"; "C"]; ["t"; "1"; "2"; "3"]] |});
    reflexivity.
Defined.

Lemma one_mail_lists_label_and_cell_witness :
  Grid.outbox (snd (doPost parseThree Grid.platform johnDoe fourColumns))
  = (Grid.outbox fourColumns ++
     [{| to := EMAIL_TO;
         subject := "New Ideal Avatar Submission";
         body := join (newline ++ newline)
                   (map (fun hv => (fst hv ++ ":" ++ newline ++ snd hv)%string)
                        (combine ["Timestamp"; "Name"; "Email"]
                                 ["2024-05-01T10:00:00.000Z"; "John Doe";
                                  "john@example.com"])) |}])%list
  /\ Grid.mailQuota (snd (doPost parseThree Grid.platform johnDoe fourColumns))
     = pred (Grid.mailQuota fourColumns).
Proof.
  apply (one_mail_lists_label_and_cell parseThree johnDoe fourColumns); reflexivity.
Defined.

(** ** Without an order hint *)












(** * Further properties of the contact form *)

Section SubmitMore.

Import Client.

Lemma filter_absent (c : string) (l : list string) :
  hasClass c l = false ->
  filter (fun x => negb (String.eqb c x)) l = l.
Proof.
  unfold hasClass. induction l as [|x l IH]; intros H; [reflexivity |].
  cbn [existsb] in H. apply orb_false_iff in H as [Hx Hl].
  cbn [filter]. rewrite Hx. cbn [negb]. now rewrite IH.
Qed.

Lemma filter_visible (l : list string) :
  hasClass "visible" l = false ->
  filter (fun x => negb (String.eqb "visible" x))
         (if hasClass "visible" l then l else (l ++ ["visible"])%list)
  = l.
Proof.
  intros H. rewrite H, filter_app, (filter_absent "visible" l H).
  cbn [filter]. rewrite String.eqb_refl. cbn [negb]. apply app_nil_r.
Qed.

(** X16.  A submission answered with success on a page that has the
    indicator: once 4000 ms have passed after the handler returned, the page is
    back where it started (the same enabled button, the indicator hidden
    again, no timer pending, nothing logged and no alert) except that the form
    has been reset. *)
Theorem success_round_trip (latency alertOpenFor dt : N) (p : Page)
  (b : Button) (l : list string) :
  button p = Some b ->
  disabled b = false ->
  formSuccess p = Some l ->
  hasClass "visible" l = false ->
  timers p = [] ->
  (4000 <= dt)%N ->
  advance dt (snd (onSubmit latency (Fulfilled true) alertOpenFor p))
  = {| button := Some b;
       fields := defaults p;
       defaults := defaults p;
       formSuccess := Some l;
       console := console p;
       alerts := alerts p;
       timers := [];
       clock := (clock p + latency + dt)%N |}.
Proof.
  destruct p as [btn flds dflts fs cons alrts tmrs clk].
  destruct b as [text dis].
  cbn [button timers formSuccess defaults console alerts clock disabled].
  intros -> -> -> Hvis -> Hdt.
  cbv -[N.add N.leb hasClass].
  rewrite (due_now_0 clk latency 4000 dt Hdt), Hvis.
  cbv -[N.add N.leb hasClass].
  do 2 f_equal.
  transitivity (filter (fun x => negb (String.eqb "visible" x))
                       (if hasClass "visible" l then l else (l ++ ["visible"])%list));
    [rewrite Hvis; reflexivity | exact (filter_visible l Hvis)].
Qed.

End SubmitMore.

Lemma success_round_trip_witness :
  Client.advance 4000
    (snd (Client.onSubmit 250 (Client.Fulfilled true) 0 withIndicator))
  = {| Client.button :=
         Some {| Client.innerText := "Send"; Client.disabled := false |};
       Client.fields := [("name", "")];
       Client.defaults := [("name", "")];
       Client.formSuccess := Some ["success-message"];
       Client.console := [];
       Client.alerts := [];
       Client.timers := [];
       Client.clock := 4350%N |}.
Proof.
  apply (success_round_trip 250 0 4000 withIndicator
           {| Client.innerText := "Send"; Client.disabled := false |}
           ["success-message"]); reflexivity.
Defined.

Section SubmitTiming.

Import Client.

Lemma due_after (clk latency delay dt : N) :
  (clk + latency + delay <=? clk + latency + dt)%N = (delay <=? dt)%N.
Proof.
  destruct (N.leb_spec delay dt) as [H|H].
  - apply N.leb_le. lia.
  - apply N.leb_gt. lia.
Qed.

Lemma due_after_alert (clk latency delay extra dt : N) :
  (clk + latency + delay <=? clk + latency + extra + dt)%N
  = (delay <=? extra + dt)%N.
Proof.
  destruct (N.leb_spec delay (extra + dt)) as [H|H].
  - apply N.leb_le. lia.
  - apply N.leb_gt. lia.
Qed.

(** X17.  A submission that is not answered with success (the response is
    not ok, or the request fails) leaves what the user typed and the
    indicator as they were: the handler returns normally, and all it changes
    is the button (Error, disabled), the console (one entry with the error),
    the alerts (the apology), the one pending restoration 3000 ms after the
    response, and the clock. *)
Theorem failure_keeps_the_input (latency alertOpenFor : N)
  (outcome : Settled) (p : Page) (b : Button) :
  button p = Some b ->
  timers p = [] ->
  outcome <> Fulfilled true ->
  onSubmit latency outcome alertOpenFor p
  = (ok tt,
     {| button := Some {| innerText := "Error"; disabled := true |};
        fields := fields p;
        defaults := defaults p;
        formSuccess := formSuccess p;
        console :=
          (console p ++
           [("Error:",
             match outcome with
             | Rejected reason => reason
             | Fulfilled _ => Error "Form submission failed"
             end)])%list;
        alerts := (alerts p ++ [apology])%list;
        timers := [{| due := (clock p + latency + 3000)%N;
                      callback := RestoreAfterError (innerText b) |}];
        clock := (clock p + latency + alertOpenFor)%N |}).
Proof.
  destruct p as [btn flds dflts fs cons alrts tmrs clk].
  cbn [button timers fields defaults formSuccess console alerts clock].
  intros -> -> Hout.
  destruct outcome as [[|]|reason]; [now elim Hout | reflexivity | reflexivity].
Qed.

(** X18.  After a submission answered with success on a page that has the
    indicator, the button reads Message Sent and stays disabled, and the
    indicator stays visible, for as long as fewer than 4000 ms have passed
    since the handler returned; from 4000 ms on the button is enabled under
    its first label and the indicator is hidden. *)
Theorem sent_state_lasts_4000 (latency alertOpenFor dt : N) (p : Page)
  (b : Button) (l : list string) :
  button p = Some b ->
  formSuccess p = Some l ->
  hasClass "visible" l = false ->
  timers p = [] ->
  let p2 := advance dt (snd (onSubmit latency (Fulfilled true) alertOpenFor p)) in
  button p2
  = (if (4000 <=? dt)%N
     then Some {| innerText := innerText b; disabled := false |}
     else Some {| innerText := "Message Sent"; disabled := true |})
  /\ formSuccess p2
     = (if (4000 <=? dt)%N then Some l else Some (l ++ ["visible"])%list).
Proof.
  destruct p as [btn flds dflts fs cons alrts tmrs clk].
  destruct b as [text dis].
  cbn [button timers formSuccess innerText].
  intros -> -> Hvis ->. cbv zeta.
  cbv -[N.add N.leb hasClass].
  rewrite (due_after clk latency 4000 dt), Hvis.
  destruct (4000 <=? dt)%N.
  - cbv -[N.add N.leb hasClass]. split; [reflexivity |].
    f_equal.
    transitivity (filter (fun x => negb (String.eqb "visible" x))
                         (if hasClass "visible" l then l else (l ++ ["visible"])%list));
      [rewrite Hvis; reflexivity | exact (filter_visible l Hvis)].
  - cbv -[N.add N.leb hasClass]. split; reflexivity.
Qed.

(** X19.  After a submission that is not answered with success, the button
    is not given back early: the restoration is scheduled before the alert
    opens, and as long as the time the alert was open and the time passed
    since the handler returned make fewer than 3000 ms together, the button
    reads Error and is disabled. *)
Theorem error_state_lasts_3000 (latency alertOpenFor dt : N)
  (outcome : Settled) (p : Page) (b : Button) :
  button p = Some b ->
  timers p = [] ->
  outcome <> Fulfilled true ->
  (alertOpenFor + dt < 3000)%N ->
  button (advance dt (snd (onSubmit latency outcome alertOpenFor p)))
  = Some {| innerText := "Error"; disabled := true |}.
Proof.
  destruct p as [btn flds dflts fs cons alrts tmrs clk].
  cbn [button timers].
  intros -> -> Hout Hdt.
  apply N.leb_gt in Hdt.
  destruct outcome as [[|]|reason]; [now elim Hout | |];
    cbv -[N.add N.leb];
    rewrite (due_after_alert clk latency 3000 alertOpenFor dt), Hdt;
    reflexivity.
Qed.

End SubmitTiming.

Lemma failure_keeps_the_input_witness :
  Client.onSubmit 250 (Client.Rejected (TypeError "Failed to fetch")) 7000
                  withIndicator
  = (ok tt,
     {| Client.button :=
          Some {| Client.innerText := "Error"; Client.disabled := true |};
        Client.fields := [("name", "Ann")];
        Client.defaults := [("name", "")];
        Client.formSuccess := Some ["success-message"];
        Client.console := [("Error:", TypeError "Failed to fetch")];
        Client.alerts := [Client.apology];
        Client.timers :=
          [{| Client.due := 3350%N;
              Client.callback := Client.RestoreAfterError "Send" |}];
        Client.clock := 7350%N |}).
Proof.
  apply (failure_keeps_the_input 250 7000
           (Client.Rejected (TypeError "Failed to fetch")) withIndicator
           {| Client.innerText := "Send"; Client.disabled := false |});
    [reflexivity | reflexivity | discriminate].
Defined.

Lemma sent_state_lasts_4000_witness :
  Client.button
    (Client.advance 3999
       (snd (Client.onSubmit 250 (Client.Fulfilled true) 0 withIndicator)))
  = Some {| Client.innerText := "Message Sent"; Client.disabled := true |}
  /\ Client.formSuccess
       (Client.advance 3999
          (snd (Client.onSubmit 250 (Client.Fulfilled true) 0 withIndicator)))
     = Some ["success-message"; "visible"].
Proof.
  apply (sent_state_lasts_4000 250 0 3999 withIndicator
           {| Client.innerText := "Send"; Client.disabled := false |}
           ["success-message"]); reflexivity.
Defined.

Lemma error_state_lasts_3000_witness :
  Client.button
    (Client.advance 1999
       (snd (Client.onSubmit 250 (Client.Fulfilled false) 1000 withIndicator)))
  = Some {| Client.innerText := "Error"; Client.disabled := true |}.
Proof.
  apply (error_state_lasts_3000 250 1000 1999
           (Client.Fulfilled false) withIndicator
           {| Client.innerText := "Send"; Client.disabled := false |});
    [reflexivity | reflexivity | discriminate | reflexivity].
Defined.

(** * The page effects *)

Section ClassLists.

Import Effects.

Lemma hasClass_In (c : string) (l : list string) :
  Client.hasClass c l = true <-> In c l.
Proof.
  unfold Client.hasClass. rewrite existsb_exists. split.
  - intros [x [Hx Heq]]. apply String.eqb_eq in Heq. now subst x.
  - intros H. exists c. split; [assumption | apply String.eqb_refl].
Qed.

Lemma In_add (c x : string) (l : list string) :
  In x (add c l) <-> x = c \/ In x l.
Proof.
  unfold add. destruct (Client.hasClass c l) eqn:H.
  - apply hasClass_In in H. split; [now right |].
    intros [-> | Hx]; assumption.
  - rewrite in_app_iff. cbn [In]. split.
    + intros [Hx | [Hx | []]]; [now right | now left].
    + intros [Hx | Hx]; [right; now left | now left].
Qed.

Lemma In_remove (c x : string) (l : list string) :
  In x (remove c l) <-> x <> c /\ In x l.
Proof.
  unfold remove. rewrite filter_In. split.
  - intros [Hx Hneq]. split; [| assumption].
    intros ->. now rewrite String.eqb_refl in Hneq.
  - intros [Hneq Hx]. split; [assumption |].
    destruct (String.eqb_spec c x) as [Heq | _]; [now elim Hneq | reflexivity].
Qed.

Lemma add_present (c : string) (l : list string) :
  In c l -> add c l = l.
Proof. intros H. apply hasClass_In in H. unfold add. now rewrite H. Qed.

Lemma remove_absent (c : string) (l : list string) :
  ~ In c l -> remove c l = l.
Proof.
  intros H. apply filter_absent.
  destruct (Client.hasClass c l) eqn:Hc; [| reflexivity].
  apply hasClass_In in Hc. now elim H.
Qed.

Lemma add_twice (c : string) (l : list string) :
  add c (add c l) = add c l.
Proof. apply add_present, In_add. now left. Qed.

Lemma NoDup_add (c : string) (l : list string) :
  NoDup l -> NoDup (add c l).
Proof.
  intros H. unfold add. destruct (Client.hasClass c l) eqn:Hc; [assumption |].
  apply NoDup_app; [assumption | repeat constructor; intros [] |].
  intros x Hx [<- | []].
  apply hasClass_In in Hx. congruence.
Qed.

Lemma NoDup_remove (c : string) (l : list string) :
  NoDup l -> NoDup (remove c l).
Proof. apply NoDup_filter. Qed.

End ClassLists.

Section Scroll.

Import QArith_base.
Import Effects.
Local Close Scope Q_scope.

Lemma beyond_50 (y : Q) :
  negb (Qle_bool y (50 # 1)%Q) = true <-> ((50 # 1) < y)%Q.
Proof.
  rewrite negb_true_iff. split.
  - intros H. apply Qnot_le_lt. intros Hle.
    apply Qle_bool_iff in Hle. congruence.
  - intros H. destruct (Qle_bool y (50 # 1)%Q) eqn:Hle; [| reflexivity].
    apply Qle_bool_iff in Hle. now apply Qlt_not_le in H.
Qed.

(** X20.  On a page that has the header, the scroll listener returns with
    the scroll position untouched and leaves the header marked [scrolled]
    exactly when the page is scrolled by more than 50 pixels; every other
    class of the header is kept, and no class is listed twice. *)
Theorem header_is_marked_beyond_50 (w : Window) (l : list string) :
  header w = Some l ->
  exists l',
    onScroll w = ok {| scrollY := scrollY w; header := Some l' |}
    /\ (In "scrolled" l' <-> ((50 # 1) < scrollY w)%Q)
    /\ (forall c, c <> "scrolled" -> (In c l' <-> In c l))
    /\ (NoDup l -> NoDup l').
Proof.
  intros Hl. unfold onScroll. rewrite Hl.
  eexists. split; [reflexivity |].
  pose proof (beyond_50 (scrollY w)) as Hb.
  destruct (negb (Qle_bool (scrollY w) (50 # 1)%Q)).
  - split; [| split].
    + rewrite In_add. split; [intros _; now apply Hb | now left].
    + intros c Hc. rewrite In_add. split; [intros [H | H] |]; tauto.
    + apply NoDup_add.
  - split; [| split].
    + rewrite In_remove. split; [intros [H _]; now elim H |].
      intros H. apply Hb in H. discriminate H.
    + intros c Hc. rewrite In_remove. tauto.
    + apply NoDup_remove.
Qed.

(** X21.  A scroll event that follows another with the page at the same
    position changes nothing: the listener, run on the window it has just
    left, returns that window. *)
Theorem scroll_listener_is_idempotent (w w' : Window) :
  onScroll w = ok w' ->
  onScroll w' = ok w'.
Proof.
  unfold onScroll. destruct (header w) as [l|]; [| discriminate].
  intros H. injection H as <-. cbn [header scrollY].
  do 3 f_equal.
  destruct (negb (Qle_bool (scrollY w) (50 # 1)%Q)).
  - apply add_twice.
  - apply remove_absent. rewrite In_remove. tauto.
Qed.

End Scroll.

Lemma header_is_marked_beyond_50_witness :
  exists l',
    Effects.onScroll scrolledDown
    = ok {| Effects.scrollY := Effects.scrollY scrolledDown;
            Effects.header := Some l' |}
    /\ (In "scrolled" l'
        <-> QArith_base.Qlt (QArith_base.Qmake 50 1) (Effects.scrollY scrolledDown))
    /\ (forall c, c <> "scrolled" -> (In c l' <-> In c ["header"]))
    /\ (NoDup ["header"] -> NoDup l').
Proof.
  apply (header_is_marked_beyond_50 scrolledDown ["header"]). reflexivity.
Defined.

Lemma scroll_listener_is_idempotent_witness :
  Effects.onScroll
    {| Effects.scrollY := QArith_base.Qmake 120 1;
       Effects.header := Some ["header"; "scrolled"] |}
  = ok {| Effects.scrollY := QArith_base.Qmake 120 1;
          Effects.header := Some ["header"; "scrolled"] |}.
Proof.
  apply (scroll_listener_is_idempotent scrolledDown). reflexivity.
Defined.

Section Observer.

Import Effects.

Lemma reveal_classList (d : Dom) (e : Entry) (el : nat) :
  classList (reveal d e) el
  = if isIntersecting e && Nat.eqb el (target e)
    then add "visible" (classList d el)
    else classList d el.
Proof.
  unfold reveal. destruct (isIntersecting e); reflexivity.
Qed.

Lemma reveal_observed (d : Dom) (e : Entry) (el : nat) :
  In el (observed (reveal d e))
  <-> In el (observed d) /\ isIntersecting e && Nat.eqb el (target e) = false.
Proof.
  unfold reveal. destruct (isIntersecting e); cbn [andb].
  - cbn [unobserve addClass observed]. rewrite filter_In, negb_true_iff.
    now rewrite (Nat.eqb_sym el).
  - tauto.
Qed.

Lemma callback_classList (entries : list Entry) (d : Dom) (el : nat) :
  classList (callback entries d) el
  = if Spec.inSight entries el
    then add "visible" (classList d el)
    else classList d el.
Proof.
  unfold callback, Spec.inSight. revert d.
  induction entries as [|e entries IH]; intros d; [reflexivity |].
  cbn [fold_left existsb]. rewrite IH, reveal_classList.
  destruct (isIntersecting e && Nat.eqb el (target e)); cbn [orb].
  - rewrite add_twice. now destruct (existsb _ entries).
  - reflexivity.
Qed.

Lemma callback_observed (entries : list Entry) (d : Dom) (el : nat) :
  In el (observed (callback entries d))
  <-> In el (observed d) /\ Spec.inSight entries el = false.
Proof.
  unfold callback, Spec.inSight. revert d.
  induction entries as [|e entries IH]; intros d; [cbn; tauto |].
  cbn [fold_left existsb]. rewrite IH, reveal_observed, orb_false_iff. tauto.
Qed.

Lemma observe_observed (x el : nat) (d : Dom) :
  In el (observed (observe x d)) <-> el = x \/ In el (observed d).
Proof.
  unfold observe. cbn [observed].
  destruct (existsb (Nat.eqb x) (observed d)) eqn:H.
  - apply existsb_exists in H as [y [Hy Heq]]. apply Nat.eqb_eq in Heq.
    subst y. split; [now right | intros [-> | H]; assumption].
  - rewrite in_app_iff. cbn [In]. intuition (subst; auto).
Qed.

Lemma observeAll_observed (fadeElements : list nat) (d : Dom) (el : nat) :
  In el (observed (observeAll fadeElements d))
  <-> In el fadeElements \/ In el (observed d).
Proof.
  unfold observeAll. revert d.
  induction fadeElements as [|x xs IH]; intros d; [cbn; tauto |].
  cbn [fold_left In]. rewrite IH, observe_observed.
  intuition (subst; auto).
Qed.

Lemma observeAll_classList (fadeElements : list nat) (d : Dom) :
  classList (observeAll fadeElements d) = classList d.
Proof.
  unfold observeAll. revert d.
  induction fadeElements as [|x xs IH]; intros d; [reflexivity |].
  cbn [fold_left]. now rewrite IH.
Qed.

(** X22.  What one run of the observer's callback does to an element: if
    some entry of the batch reports it in sight, the element has the class
    [visible] added (once, whatever the number of such entries) and is no
    longer observed; otherwise its classes are what they were and it is
    observed exactly if it was. *)
Theorem callback_reveals_what_is_in_sight (entries : list Entry) (d : Dom)
  (el : nat) :
  classList (callback entries d) el
  = (if Spec.inSight entries el
     then add "visible" (classList d el)
     else classList d el)
  /\ (In el (observed (callback entries d))
      <-> In el (observed d) /\ Spec.inSight entries el = false).
Proof.
  split; [apply callback_classList | apply callback_observed].
Qed.

(** X23.  An element that fades in is never lost: once all of them have
    been handed to the observer, and after any number of runs of the callback
    with entries of any kind, each of them is still observed or has the class
    [visible]. *)
Theorem fade_elements_are_watched_until_shown (fadeElements : list nat)
  (d : Dom) (batches : list (list Entry)) (el : nat) :
  In el fadeElements ->
  let d' := fold_left (fun d entries => callback entries d) batches
                      (observeAll fadeElements d) in
  In el (observed d') \/ In "visible" (classList d' el).
Proof.
  intros Hel. cbv zeta.
  assert (In el (observed (observeAll fadeElements d))
          \/ In "visible" (classList (observeAll fadeElements d) el)) as H
    by (left; apply observeAll_observed; now left).
  revert H. generalize (observeAll fadeElements d). clear d Hel.
  induction batches as [|entries batches IH]; intros d H; [exact H |].
  cbn [fold_left]. apply IH.
  rewrite callback_observed, callback_classList.
  destruct (Spec.inSight entries el).
  - right. apply In_add. now left.
  - destruct H as [H | H]; [left; now split | now right].
Qed.

End Observer.

Lemma fade_elements_are_watched_until_shown_witness :
  In 1 (Effects.observed
          (fold_left (fun d entries => Effects.callback entries d)
             [[{| Effects.target := 1; Effects.isIntersecting := true |};
               {| Effects.target := 2; Effects.isIntersecting := false |}];
              [{| Effects.target := 1; Effects.isIntersecting := true |}]]
             (Effects.observeAll [0; 1; 2] threeCards)))
  \/ In "visible"
        (Effects.classList
           (fold_left (fun d entries => Effects.callback entries d)
              [[{| Effects.target := 1; Effects.isIntersecting := true |};
                {| Effects.target := 2; Effects.isIntersecting := false |}];
               [{| Effects.target := 1; Effects.isIntersecting := true |}]]
              (Effects.observeAll [0; 1; 2] threeCards))
           1).
Proof.
  apply (fade_elements_are_watched_until_shown [0; 1; 2] threeCards
           [[{| Effects.target := 1; Effects.isIntersecting := true |};
             {| Effects.target := 2; Effects.isIntersecting := false |}];
            [{| Effects.target := 1; Effects.isIntersecting := true |}]] 1).
  cbn. tauto.
Defined.
